(** * Service tracker: storage provider, schema validation and API routes

    A shallow embedding of the TypeScript sources
      - shared schema            (tables [serviceRequests], [comments] and the
                                  two insert schemas),
      - [MemStorage]             (the in-process keyed collection),
      - [DatabaseStorage]        (server/storage.ts, the relational variant),
      - server/routes.ts         (the handlers that touch the store),
    followed by the properties of the data-access contract.

    Conventions of the embedding:
      - a date is the integer [new Date(...)] is built from; its
        [getTime()] is that integer, or [NaN] when it lies outside the
        range of time values;
      - [randomUUID()] and [new Date()] are inputs of the operations;
      - a JS [Map] is an association list in insertion order;
      - a [Promise] of a value is the value: no handler awaits anything but
        the store, and the in-process store never rejects;
      - strings are byte strings; [toLowerCase] folds the ASCII letters. *)

From Stdlib Require Import List ZArith Lia Bool String Ascii.
From Stdlib Require Import Permutation Sorted.
Import ListNotations.

Open Scope string_scope.
Open Scope list_scope.

(* ===================================================================== *)
(** ** JavaScript library functions used by the sources *)
(* ===================================================================== *)

Module Js.

(** [a || b] on a string operand: the empty string is falsy. *)
Definition or_string (a : option string) (b : string) : string :=
  match a with
  | None => b
  | Some s => if String.eqb s "" then b else s
  end.

(** A value of type [T | null | undefined]. *)
Inductive Nullable (T : Type) : Type :=
| Undefined : Nullable T
| Null : Nullable T
| Val : T -> Nullable T.
Arguments Undefined {T}.
Arguments Null {T}.
Arguments Val {T} _.

(** [a || []] on an array operand: every array (also the empty one) is
    truthy, [null] and [undefined] are falsy. *)
Definition or_empty {T : Type} (a : Nullable (list T)) : list T :=
  match a with
  | Val l => l
  | _ => []
  end.

(** The same on a [T[] | null] field. *)
Definition or_nil {T : Type} (a : option (list T)) : list T :=
  match a with
  | Some l => l
  | None => []
  end.

(** [Array.prototype.sort(cmp)]: a stable sort; [cmp a b > 0] puts [b]
    first.  Insertion of the elements from the right keeps equal elements
    in their original order.  For a comparator that is consistent this is
    the one list every stable sort returns; for one that is not (a [NaN]
    among the keys) the language leaves the order to the engine. *)
Fixpoint insertBy {A : Type} (cmp : A -> A -> Z) (x : A) (l : list A) : list A :=
  match l with
  | [] => [x]
  | y :: l' => if (cmp x y <=? 0)%Z then x :: l else y :: insertBy cmp x l'
  end.

Definition sortBy {A : Type} (cmp : A -> A -> Z) (l : list A) : list A :=
  fold_right (insertBy cmp) [] l.

(** [new Date(v).getTime()]: the time value [v], or [NaN] ([None]) when [v]
    is more than 8.64e15 ms away from the epoch. *)
Definition maxTime : Z := 8640000000000000.

Definition valid_time (v : Z) : bool := (Z.abs v <=? maxTime)%Z.

Definition getTime (v : Z) : option Z :=
  if valid_time v then Some v else None.

(** [x - y] on numbers that may be [NaN]. *)
Definition sub (x y : option Z) : option Z :=
  match x, y with
  | Some a, Some b => Some (a - b)%Z
  | _, _ => None
  end.

(** What [sort] makes of the comparator's result: [NaN] counts as [+0]. *)
Definition sort_order (v : option Z) : Z :=
  match v with
  | Some z => z
  | None => 0%Z
  end.

(** [a < b] on two dates: false when either is invalid. *)
Definition earlier (a b : Z) : Prop :=
  match getTime a, getTime b with
  | Some x, Some y => (x < y)%Z
  | _, _ => False
  end.

(** [String.prototype.toLowerCase] on ASCII text. *)
Definition lower_char (c : ascii) : ascii :=
  let n := N_of_ascii c in
  if ((65 <=? n) && (n <=? 90))%N then ascii_of_N (n + 32) else c.

Fixpoint toLowerCase (s : string) : string :=
  match s with
  | EmptyString => EmptyString
  | String c s' => String (lower_char c) (toLowerCase s')
  end.

(** [s.startsWith(t)] and [s.includes(t)]. *)
Fixpoint startsWith (s t : string) {struct t} : bool :=
  match t, s with
  | EmptyString, _ => true
  | String _ _, EmptyString => false
  | String b t', String a s' => Ascii.eqb a b && startsWith s' t'
  end.

Fixpoint includes (s t : string) : bool :=
  startsWith s t ||
  match s with
  | EmptyString => false
  | String _ s' => includes s' t
  end.

(** A JS [Map]: keys in insertion order; [set] on a present key keeps its
    position. *)
Definition Map (V : Type) : Type := list (string * V).

Fixpoint map_get {V : Type} (k : string) (m : Map V) : option V :=
  match m with
  | [] => None
  | (k', v) :: m' => if String.eqb k' k then Some v else map_get k m'
  end.

Fixpoint map_set {V : Type} (k : string) (v : V) (m : Map V) : Map V :=
  match m with
  | [] => [(k, v)]
  | (k', v') :: m' =>
      if String.eqb k' k then (k', v) :: m' else (k', v') :: map_set k v m'
  end.

Definition map_values {V : Type} (m : Map V) : list V := map snd m.

Definition map_keys {V : Type} (m : Map V) : list string := map fst m.

End Js.

(* ===================================================================== *)
(** ** JSON values: request bodies and responses *)
(* ===================================================================== *)

Module Json.

#[local] Unset Elimination Schemes.
Inductive t : Type :=
| JNull : t
| JBool : bool -> t
| JNum : Z -> t
| JStr : string -> t
| JArr : list t -> t
| JObj : list (string * t) -> t.
#[local] Set Elimination Schemes.

(** Property lookup on an object; [None] is [undefined]. *)
Fixpoint get_field (k : string) (o : list (string * t)) : option t :=
  match o with
  | [] => None
  | (k', v) :: o' => if String.eqb k' k then Some v else get_field k o'
  end.

Definition get (k : string) (j : t) : option t :=
  match j with
  | JObj o => get_field k o
  | _ => None
  end.

Definition has (k : string) (j : t) : bool :=
  match get k j with
  | Some _ => true
  | None => false
  end.

(** [{...o, k: v}]: a later property of the same name wins. *)
Definition with_field (k : string) (v : t) (o : list (string * t)) : list (string * t) :=
  (k, v) :: o.

(** An array of strings, or nothing when any element is not a string
    ([z.array(z.string())]). *)
Fixpoint strings_of (l : list t) : option (list string) :=
  match l with
  | [] => Some []
  | JStr s :: l' =>
      match strings_of l' with
      | Some r => Some (s :: r)
      | None => None
      end
  | _ :: _ => None
  end.

Definition of_strings (l : list string) : t := JArr (map JStr l).

End Json.

(* ===================================================================== *)
(** ** Shared schema: the two record shapes and their insert schemas *)
(* ===================================================================== *)

(** [typeof serviceRequests.$inferSelect]: [status] is a [text] column, and
    [attachments] is a nullable [text[]] column. *)
Module ServiceRequest.
Record t : Type := mk {
  id : string;
  productName : string;
  serialNumber : string;
  customerName : string;
  customerContact : string;
  issueDescription : string;
  status : string;
  attachments : option (list string);
  createdAt : Z;
  updatedAt : Z
}.
End ServiceRequest.

(** [z.infer<typeof insertServiceRequestSchema>]: [id], [createdAt] and
    [updatedAt] are omitted; the columns with a default are optional. *)
Module InsertServiceRequest.
Record t : Type := mk {
  productName : string;
  serialNumber : string;
  customerName : string;
  customerContact : string;
  issueDescription : string;
  status : option string;
  attachments : Js.Nullable (list string)
}.
End InsertServiceRequest.

(** [Partial<ServiceRequest>]: every property, [id] and [createdAt]
    included, may be present or absent. *)
Module PartialServiceRequest.
Record t : Type := mk {
  id : option string;
  productName : option string;
  serialNumber : option string;
  customerName : option string;
  customerContact : option string;
  issueDescription : option string;
  status : option string;
  attachments : option (option (list string));
  createdAt : option Z;
  updatedAt : option Z
}.

(** [{}] *)
Definition empty : t := mk None None None None None None None None None None.

(** [{ status }] *)
Definition of_status (s : string) : t :=
  mk None None None None None None (Some s) None None None.

(** [{ attachments }] *)
Definition of_attachments (l : list string) : t :=
  mk None None None None None None None (Some (Some l)) None None.

(** [{ createdAt }] *)
Definition of_createdAt (d : Z) : t :=
  mk None None None None None None None None (Some d) None.
End PartialServiceRequest.

(** [typeof comments.$inferSelect]: the table has the four columns [id],
    [serviceRequestId], [text] and [createdAt]. *)
Module Comment.
Record t : Type := mk {
  id : string;
  serviceRequestId : string;
  text : string;
  createdAt : Z
}.

(** The object [res.json] serialises, property by property. *)
Definition toJSON (c : t) : Json.t :=
  Json.JObj [ ("serviceRequestId", Json.JStr (serviceRequestId c));
              ("text", Json.JStr (text c));
              ("id", Json.JStr (id c));
              ("createdAt", Json.JNum (createdAt c)) ].
End Comment.

(** [z.infer<typeof insertCommentSchema>]: [id] and [createdAt] omitted. *)
Module InsertComment.
Record t : Type := mk {
  serviceRequestId : string;
  text : string
}.
End InsertComment.

Module Schema.

(** The values the column comment of [status] lists. *)
Definition statusEnum : list string :=
  ["new"; "inspection"; "service"; "received"; "completed"].

Definition is_status (s : string) : bool :=
  existsb (String.eqb s) statusEnum.

(** A required [z.string()] property. *)
Definition required_string (k : string) (o : list (string * Json.t)) : option string :=
  match Json.get_field k o with
  | Some (Json.JStr s) => Some s
  | _ => None
  end.

(** A [z.string().optional()] property: absent, or a string. *)
Definition optional_string (k : string) (o : list (string * Json.t)) : option (option string) :=
  match Json.get_field k o with
  | None => Some None
  | Some (Json.JStr s) => Some (Some s)
  | Some _ => None
  end.

(** A [z.array(z.string()).nullable().optional()] property. *)
Definition optional_strings (k : string) (o : list (string * Json.t))
  : option (Js.Nullable (list string)) :=
  match Json.get_field k o with
  | None => Some Js.Undefined
  | Some Json.JNull => Some Js.Null
  | Some (Json.JArr l) =>
      match Json.strings_of l with
      | Some r => Some (Js.Val r)
      | None => None
      end
  | Some _ => None
  end.

(** [insertServiceRequestSchema.parse(body)]; [None] is a [ZodError].
    Properties the schema does not name are stripped. *)
Definition insertServiceRequestSchema_parse (body : Json.t)
  : option InsertServiceRequest.t :=
  match body with
  | Json.JObj o =>
      match required_string "productName" o,
            required_string "serialNumber" o,
            required_string "customerName" o,
            required_string "customerContact" o,
            required_string "issueDescription" o,
            optional_string "status" o,
            optional_strings "attachments" o with
      | Some pn, Some sn, Some cn, Some cc, Some idn, Some st, Some att =>
          Some (InsertServiceRequest.mk pn sn cn cc idn st att)
      | _, _, _, _, _, _, _ => None
      end
  | _ => None
  end.

(** [insertCommentSchema.parse(body)]: the schema names [serviceRequestId]
    and [text] only; any other property of the body is stripped. *)
Definition insertCommentSchema_parse (body : Json.t) : option InsertComment.t :=
  match body with
  | Json.JObj o =>
      match required_string "serviceRequestId" o, required_string "text" o with
      | Some sid, Some txt => Some (InsertComment.mk sid txt)
      | _, _ => None
      end
  | _ => None
  end.

End Schema.

(* ===================================================================== *)
(** ** MemStorage: the in-process keyed collection *)
(* ===================================================================== *)

Module MemStorage.

Record t : Type := mk {
  serviceRequests : Js.Map ServiceRequest.t;
  comments : Js.Map Comment.t
}.

(** [new MemStorage()] *)
Definition empty : t := mk [] [].

(** The two comparators handed to [sort]. *)
Definition newest_first (a b : ServiceRequest.t) : Z :=
  Js.sort_order
    (Js.sub (Js.getTime (ServiceRequest.createdAt b))
            (Js.getTime (ServiceRequest.createdAt a))).

Definition oldest_first (a b : Comment.t) : Z :=
  Js.sort_order
    (Js.sub (Js.getTime (Comment.createdAt a))
            (Js.getTime (Comment.createdAt b))).

Definition is_completed (r : ServiceRequest.t) : bool :=
  String.eqb (ServiceRequest.status r) "completed".

Definition getServiceRequest (id : string) (s : t) : option ServiceRequest.t :=
  Js.map_get id (serviceRequests s).

Definition getAllServiceRequests (s : t) : list ServiceRequest.t :=
  Js.sortBy newest_first (Js.map_values (serviceRequests s)).

Definition getActiveServiceRequests (s : t) : list ServiceRequest.t :=
  Js.sortBy newest_first
    (filter (fun request => negb (is_completed request))
            (Js.map_values (serviceRequests s))).

Definition getCompletedServiceRequests (s : t) : list ServiceRequest.t :=
  Js.sortBy newest_first
    (filter is_completed (Js.map_values (serviceRequests s))).

Definition createServiceRequest (insertServiceRequest : InsertServiceRequest.t)
    (uuid : string) (now : Z) (s : t) : ServiceRequest.t * t :=
  let serviceRequest :=
    ServiceRequest.mk
      uuid
      (InsertServiceRequest.productName insertServiceRequest)
      (InsertServiceRequest.serialNumber insertServiceRequest)
      (InsertServiceRequest.customerName insertServiceRequest)
      (InsertServiceRequest.customerContact insertServiceRequest)
      (InsertServiceRequest.issueDescription insertServiceRequest)
      (Js.or_string (InsertServiceRequest.status insertServiceRequest) "new")
      (Some (Js.or_empty (InsertServiceRequest.attachments insertServiceRequest)))
      now
      now in
  (serviceRequest,
   mk (Js.map_set uuid serviceRequest (serviceRequests s)) (comments s)).

(** [{ ...existing, ...updates, updatedAt: new Date() }] *)
Definition merge (existing : ServiceRequest.t) (updates : PartialServiceRequest.t)
    (now : Z) : ServiceRequest.t :=
  let pick {T : Type} (u : option T) (e : T) : T :=
    match u with Some v => v | None => e end in
  ServiceRequest.mk
    (pick (PartialServiceRequest.id updates) (ServiceRequest.id existing))
    (pick (PartialServiceRequest.productName updates) (ServiceRequest.productName existing))
    (pick (PartialServiceRequest.serialNumber updates) (ServiceRequest.serialNumber existing))
    (pick (PartialServiceRequest.customerName updates) (ServiceRequest.customerName existing))
    (pick (PartialServiceRequest.customerContact updates) (ServiceRequest.customerContact existing))
    (pick (PartialServiceRequest.issueDescription updates) (ServiceRequest.issueDescription existing))
    (pick (PartialServiceRequest.status updates) (ServiceRequest.status existing))
    (pick (PartialServiceRequest.attachments updates) (ServiceRequest.attachments existing))
    (pick (PartialServiceRequest.createdAt updates) (ServiceRequest.createdAt existing))
    now.

Definition updateServiceRequest (id : string) (updates : PartialServiceRequest.t)
    (now : Z) (s : t) : option ServiceRequest.t * t :=
  match Js.map_get id (serviceRequests s) with
  | None => (None, s)
  | Some existing =>
      let updated := merge existing updates now in
      (Some updated, mk (Js.map_set id updated (serviceRequests s)) (comments s))
  end.

Definition matches (lowercaseQuery : string) (request : ServiceRequest.t) : bool :=
  Js.includes (Js.toLowerCase (ServiceRequest.customerContact request)) lowercaseQuery
  || Js.includes (Js.toLowerCase (ServiceRequest.serialNumber request)) lowercaseQuery
  || Js.includes (Js.toLowerCase (ServiceRequest.customerName request)) lowercaseQuery
  || Js.includes (Js.toLowerCase (ServiceRequest.productName request)) lowercaseQuery.

Definition searchServiceRequests (query : string) (s : t) : list ServiceRequest.t :=
  let lowercaseQuery := Js.toLowerCase query in
  Js.sortBy newest_first
    (filter (matches lowercaseQuery) (Js.map_values (serviceRequests s))).

Definition getCommentsByServiceRequestId (serviceRequestId : string) (s : t)
  : list Comment.t :=
  Js.sortBy oldest_first
    (filter (fun comment => String.eqb (Comment.serviceRequestId comment) serviceRequestId)
            (Js.map_values (comments s))).

(** [{ ...insertComment, id, createdAt: new Date() }] *)
Definition createComment (insertComment : InsertComment.t) (uuid : string)
    (now : Z) (s : t) : Comment.t * t :=
  let comment :=
    Comment.mk uuid
      (InsertComment.serviceRequestId insertComment)
      (InsertComment.text insertComment)
      now in
  (comment, mk (serviceRequests s) (Js.map_set uuid comment (comments s))).

Record Metrics : Type := mkMetrics {
  totalActive : nat;
  newComplaints : nat;
  underInspection : nat;
  sentToService : nat;
  received : nat
}.

Definition has_status (v : string) (r : ServiceRequest.t) : bool :=
  String.eqb (ServiceRequest.status r) v.

Definition getMetrics (s : t) : Metrics :=
  let activeRequests := getActiveServiceRequests s in
  mkMetrics
    (List.length activeRequests)
    (List.length (filter (has_status "new") activeRequests))
    (List.length (filter (has_status "inspection") activeRequests))
    (List.length (filter (has_status "service") activeRequests))
    (List.length (filter (has_status "received") activeRequests)).

End MemStorage.

(* ===================================================================== *)
(** ** The SQL operators the relational variant uses *)
(* ===================================================================== *)

Module Sql.

(** A [LIKE] pattern, read left to right: [%] stands for any run of
    characters, [_] for any one character, and a backslash takes the next
    character literally.  A pattern that ends in a lone backslash is an
    error. *)
Inductive tok : Type :=
| AnySeq : tok
| AnyOne : tok
| Lit : ascii -> tok.

Fixpoint like_parse (p : string) : option (list tok) :=
  match p with
  | EmptyString => Some []
  | String c p' =>
      if Ascii.eqb c "%" then option_map (cons AnySeq) (like_parse p')
      else if Ascii.eqb c "_" then option_map (cons AnyOne) (like_parse p')
      else if Ascii.eqb c "\" then
        match p' with
        | EmptyString => None
        | String d p'' => option_map (cons (Lit d)) (like_parse p'')
        end
      else option_map (cons (Lit c)) (like_parse p')
  end.

(** The pattern has to cover the whole string. *)
Fixpoint like_match (ts : list tok) : string -> bool :=
  match ts with
  | [] => fun s => match s with EmptyString => true | String _ _ => false end
  | AnySeq :: ts' =>
      fix skip (s : string) : bool :=
        like_match ts' s ||
        match s with
        | EmptyString => false
        | String _ s' => skip s'
        end
  | AnyOne :: ts' =>
      fun s => match s with
               | EmptyString => false
               | String _ s' => like_match ts' s'
               end
  | Lit c :: ts' =>
      fun s => match s with
               | EmptyString => false
               | String a s' => Ascii.eqb a c && like_match ts' s'
               end
  end.

(** [ilike(column, pattern)]: [LIKE] without regard to letter case, on
    ASCII text. *)
Definition ilike (column pattern : string) : option bool :=
  match like_parse (Js.toLowerCase pattern) with
  | Some ts => Some (like_match ts (Js.toLowerCase column))
  | None => None
  end.

(** [or(a, b)] on conditions that may fail to evaluate. *)
Definition or (a b : option bool) : option bool :=
  match a, b with
  | Some x, Some y => Some (x || y)
  | _, _ => None
  end.

(** [WHERE]: the rows the condition holds for, in table order; the
    statement fails when the condition fails on a row. *)
Fixpoint where_ {A : Type} (cond : A -> option bool) (rows : list A) : option (list A) :=
  match rows with
  | [] => Some []
  | r :: rows' =>
      match cond r, where_ cond rows' with
      | Some b, Some rest => Some (if b then r :: rest else rest)
      | _, _ => None
      end
  end.

(** [ORDER BY]: rows with equal keys are left in the order of the scan. *)
Definition orderBy {A : Type} (cmp : A -> A -> Z) (rows : list A) : list A :=
  Js.sortBy cmp rows.

End Sql.

(* ===================================================================== *)
(** ** DatabaseStorage: the relational variant (server/storage.ts) *)
(* ===================================================================== *)

Module DatabaseStorage.

(** The two tables, as the rows a sequential scan yields. *)
Record t : Type := mk {
  serviceRequests : list ServiceRequest.t;
  comments : list Comment.t
}.

(** [desc(serviceRequests.createdAt)] and [asc(comments.createdAt)]: the
    columns are timestamps, which the database compares as instants. *)
Definition desc_createdAt (a b : ServiceRequest.t) : Z :=
  (ServiceRequest.createdAt b - ServiceRequest.createdAt a)%Z.

Definition asc_createdAt (a b : Comment.t) : Z :=
  (Comment.createdAt a - Comment.createdAt b)%Z.

Definition getServiceRequest (id : string) (db : t) : option ServiceRequest.t :=
  hd_error (filter (fun r => String.eqb (ServiceRequest.id r) id) (serviceRequests db)).

Definition getAllServiceRequests (db : t) : list ServiceRequest.t :=
  Sql.orderBy desc_createdAt (serviceRequests db).

Definition getActiveServiceRequests (db : t) : list ServiceRequest.t :=
  Sql.orderBy desc_createdAt
    (filter (fun r => negb (String.eqb (ServiceRequest.status r) "completed"))
            (serviceRequests db)).

Definition getCompletedServiceRequests (db : t) : list ServiceRequest.t :=
  Sql.orderBy desc_createdAt
    (filter (fun r => String.eqb (ServiceRequest.status r) "completed")
            (serviceRequests db)).

(** A date among the values of a statement has to be written out as a
    timestamp, which an invalid date cannot be. *)
Definition sendable (updates : PartialServiceRequest.t) : bool :=
  match PartialServiceRequest.createdAt updates with
  | Some d => Js.valid_time d
  | None => true
  end.

(** The key constraints of the schema an update of the row [id] would
    break: [id] is the primary key of the table, and the column
    [comments.serviceRequestId] references it. *)
Definition breaks_keys (id : string) (updates : PartialServiceRequest.t) (db : t) : bool :=
  match PartialServiceRequest.id updates with
  | Some id' =>
      negb (String.eqb id' id)
      && (existsb (fun r => String.eqb (ServiceRequest.id r) id') (serviceRequests db)
          || existsb (fun c => String.eqb (Comment.serviceRequestId c) id) (comments db))
  | None => false
  end.

(** [.set({ ...updates, updatedAt: new Date() }).where(eq(id)).returning()];
    [None] is a rejected promise. *)
Definition updateServiceRequest (id : string) (updates : PartialServiceRequest.t)
    (now : Z) (db : t) : option (option ServiceRequest.t * t) :=
  let hit (r : ServiceRequest.t) := String.eqb (ServiceRequest.id r) id in
  let set (r : ServiceRequest.t) := MemStorage.merge r updates now in
  if negb (sendable updates) then None
  else
    match filter hit (serviceRequests db) with
    | [] => Some (None, db)
    | r :: _ =>
        if breaks_keys id updates db then None
        else
          Some (Some (set r),
                mk (map (fun r => if hit r then set r else r) (serviceRequests db))
                   (comments db))
    end.

(** [insert(comments).values(insertComment).returning()]: the row gets a
    generated [id] and the current time; the statement is rejected ([None])
    when no request has the [id] it refers to, or the [id] is taken. *)
Definition createComment (insertComment : InsertComment.t) (uuid : string) (now : Z)
    (db : t) : option (Comment.t * t) :=
  let comment :=
    Comment.mk uuid
      (InsertComment.serviceRequestId insertComment)
      (InsertComment.text insertComment)
      now in
  if existsb (fun r => String.eqb (ServiceRequest.id r)
                         (InsertComment.serviceRequestId insertComment))
             (serviceRequests db)
     && negb (existsb (fun c => String.eqb (Comment.id c) uuid) (comments db))
  then Some (comment, mk (serviceRequests db) (comments db ++ [comment]))
  else None.

(** The search condition: the query is pasted between two [%] signs. *)
Definition search_condition (query : string) (r : ServiceRequest.t) : option bool :=
  let pattern := ("%" ++ query ++ "%")%string in
  Sql.or (Sql.ilike (ServiceRequest.customerContact r) pattern)
    (Sql.or (Sql.ilike (ServiceRequest.serialNumber r) pattern)
      (Sql.or (Sql.ilike (ServiceRequest.customerName r) pattern)
              (Sql.ilike (ServiceRequest.productName r) pattern))).

(** [None] is a rejected promise. *)
Definition searchServiceRequests (query : string) (db : t)
  : option (list ServiceRequest.t) :=
  option_map (Sql.orderBy desc_createdAt)
    (Sql.where_ (search_condition query) (serviceRequests db)).

Definition getCommentsByServiceRequestId (serviceRequestId : string) (db : t)
  : list Comment.t :=
  Sql.orderBy asc_createdAt
    (filter (fun c => String.eqb (Comment.serviceRequestId c) serviceRequestId)
            (comments db)).

Definition getMetrics (db : t) : MemStorage.Metrics :=
  let activeRequests := getActiveServiceRequests db in
  MemStorage.mkMetrics
    (List.length activeRequests)
    (List.length (filter (MemStorage.has_status "new") activeRequests))
    (List.length (filter (MemStorage.has_status "inspection") activeRequests))
    (List.length (filter (MemStorage.has_status "service") activeRequests))
    (List.length (filter (MemStorage.has_status "received") activeRequests)).

(** [deleteServiceRequest]: the comments of the request go first, then the
    request itself. *)
Definition deleteServiceRequest (id : string) (db : t) : t :=
  let comments' :=
    filter (fun c => negb (String.eqb (Comment.serviceRequestId c) id)) (comments db) in
  mk (filter (fun r => negb (String.eqb (ServiceRequest.id r) id)) (serviceRequests db))
     comments'.

End DatabaseStorage.

(* ===================================================================== *)
(** ** server/routes.ts: the handlers, over the in-process store *)
(* ===================================================================== *)

Module Routes.

(** [res.status(code).json(body)], or [res.status(code).json({ error })]. *)
Inductive Response (A : Type) : Type :=
| Reply : nat -> A -> Response A
| Fail : nat -> string -> Response A.
Arguments Reply {A} _ _.
Arguments Fail {A} _ _.

Definition code {A : Type} (r : Response A) : nat :=
  match r with
  | Reply c _ => c
  | Fail c _ => c
  end.

(** [{ ...req.body }]: the own properties of the body. *)
Definition spread (body : Json.t) : list (string * Json.t) :=
  match body with
  | Json.JObj o => o
  | _ => []
  end.

(** GET /api/service-requests/search: [!query] holds for a missing and for
    an empty [q]. *)
Definition get_search (q : option string) (s : MemStorage.t)
  : Response (list ServiceRequest.t) :=
  match q with
  | None => Fail 400 "Search query is required"
  | Some query =>
      if String.eqb query "" then Fail 400 "Search query is required"
      else Reply 200 (MemStorage.searchServiceRequests query s)
  end.

(** POST /api/service-requests *)
Definition post_service_request (body : Json.t) (uuid : string) (now : Z)
    (s : MemStorage.t) : Response ServiceRequest.t * MemStorage.t :=
  match Schema.insertServiceRequestSchema_parse body with
  | None => (Fail 400 "ZodError", s)
  | Some validatedData =>
      let (request, s') := MemStorage.createServiceRequest validatedData uuid now s in
      (Reply 201 request, s')
  end.

(** PATCH /api/service-requests/:id *)
Definition patch_service_request (id : string) (updates : PartialServiceRequest.t)
    (now : Z) (s : MemStorage.t) : Response ServiceRequest.t * MemStorage.t :=
  match MemStorage.updateServiceRequest id updates now s with
  | (None, s') => (Fail 404 "Service request not found", s')
  | (Some request, s') => (Reply 200 request, s')
  end.

(** GET /api/service-requests/:id/comments *)
Definition get_comments (id : string) (s : MemStorage.t) : Response (list Comment.t) :=
  Reply 200 (MemStorage.getCommentsByServiceRequestId id s).

(** POST /api/service-requests/:id/comments *)
Definition post_comment (id : string) (body : Json.t) (uuid : string) (now : Z)
    (s : MemStorage.t) : Response Comment.t * MemStorage.t :=
  match Schema.insertCommentSchema_parse
          (Json.JObj (Json.with_field "serviceRequestId" (Json.JStr id) (spread body))) with
  | None => (Fail 400 "ZodError", s)
  | Some validatedData =>
      let (comment, s') := MemStorage.createComment validatedData uuid now s in
      (Reply 201 comment, s')
  end.

(** The same handler over the relational store, the one [./storage]
    exports: a rejected insert is caught and answered with 500. *)
Definition post_comment_db (id : string) (body : Json.t) (uuid : string) (now : Z)
    (db : DatabaseStorage.t) : Response Comment.t * DatabaseStorage.t :=
  match Schema.insertCommentSchema_parse
          (Json.JObj (Json.with_field "serviceRequestId" (Json.JStr id) (spread body))) with
  | None => (Fail 400 "ZodError", db)
  | Some validatedData =>
      match DatabaseStorage.createComment validatedData uuid now db with
      | Some (comment, db') => (Reply 201 comment, db')
      | None => (Fail 500 "Internal server error", db)
      end
  end.

(** GET /api/metrics *)
Definition get_metrics (s : MemStorage.t) : Response MemStorage.Metrics :=
  Reply 200 (MemStorage.getMetrics s).

(** POST /api/service-requests/:id/attachments.  [attachments] is [None]
    when the body has no such property or it is not an array. *)
Definition post_attachments (id : string) (attachments : option (list string))
    (now : Z) (s : MemStorage.t) : Response (option ServiceRequest.t) * MemStorage.t :=
  match attachments with
  | None => (Fail 400 "Attachments array is required", s)
  | Some attachments =>
      let allRequests := MemStorage.getAllServiceRequests s in
      match find (fun r => String.eqb (ServiceRequest.id r) id) allRequests with
      | None => (Fail 404 "Service request not found", s)
      | Some request =>
          let currentAttachments := Js.or_nil (ServiceRequest.attachments request) in
          let (updatedRequest, s') :=
            MemStorage.updateServiceRequest id
              (PartialServiceRequest.of_attachments (currentAttachments ++ attachments))
              now s in
          (Reply 200 updatedRequest, s')
      end
  end.

(** PUT /api/service-requests/:id/attachments.  The object storage service
    is not part of these sources: its [normalizeObjectEntityPath] is an
    argument.  [!attachmentURL] holds for a missing and for an empty URL.
    The reply is [{ objectPath, request }]. *)
Definition put_attachment (normalizeObjectEntityPath : string -> string)
    (id : string) (attachmentURL : option string) (now : Z) (s : MemStorage.t)
  : Response (string * option ServiceRequest.t) * MemStorage.t :=
  match attachmentURL with
  | None => (Fail 400 "attachmentURL is required", s)
  | Some url =>
      if String.eqb url "" then (Fail 400 "attachmentURL is required", s)
      else
        let objectPath := normalizeObjectEntityPath url in
        match MemStorage.getServiceRequest id s with
        | None => (Fail 404 "Service request not found", s)
        | Some request =>
            let updatedAttachments :=
              Js.or_nil (ServiceRequest.attachments request) ++ [objectPath] in
            let (updatedRequest, s') :=
              MemStorage.updateServiceRequest id
                (PartialServiceRequest.of_attachments updatedAttachments) now s in
            (Reply 200 (objectPath, updatedRequest), s')
        end
  end.


End Routes.

(* ===================================================================== *)
(** ** Histories: the states a store reaches *)
(* ===================================================================== *)

Module History.

Inductive op : Type :=
| Create : InsertServiceRequest.t -> string -> Z -> op
| Update : string -> PartialServiceRequest.t -> Z -> op
| AddComment : InsertComment.t -> string -> Z -> op.

Definition step (s : MemStorage.t) (o : op) : MemStorage.t :=
  match o with
  | Create ins uuid now => snd (MemStorage.createServiceRequest ins uuid now s)
  | Update id updates now => snd (MemStorage.updateServiceRequest id updates now s)
  | AddComment ins uuid now => snd (MemStorage.createComment ins uuid now s)
  end.

Definition run (ops : list op) : MemStorage.t :=
  fold_left step ops MemStorage.empty.

End History.

(* ===================================================================== *)
(** ** client/src/pages/home.tsx: what the two request lists display *)
(* ===================================================================== *)

Module Home.

(** A query result is [undefined] until it has loaded. *)
Definition displayedActiveRequests (searchQuery : string)
    (searchResults activeRequests : option (list ServiceRequest.t))
    (statusFilter : option string) : list ServiceRequest.t :=
  let requests :=
    match searchResults with
    | Some results =>
        if String.eqb searchQuery "" then Js.or_nil activeRequests
        else filter (fun req => negb (String.eqb (ServiceRequest.status req) "completed"))
                    results
    | None => Js.or_nil activeRequests
    end in
  match statusFilter with
  | Some wanted =>
      if String.eqb wanted "" then requests
      else filter (fun req => String.eqb (ServiceRequest.status req) wanted) requests
  | None => requests
  end.

Definition displayedCompletedRequests (searchQuery : string)
    (searchResults completedRequests : option (list ServiceRequest.t))
  : list ServiceRequest.t :=
  match searchResults with
  | Some results =>
      if String.eqb searchQuery "" then Js.or_nil completedRequests
      else filter (fun req => String.eqb (ServiceRequest.status req) "completed") results
  | None => Js.or_nil completedRequests
  end.

(** [handleStatusFilter]: a second click on the same card clears it. *)
Definition handleStatusFilter (status : string) (current : option string) : option string :=
  match current with
  | Some c => if String.eqb c status then None else Some status
  | None => Some status
  end.

End Home.

(* ===================================================================== *)
(** ** Vocabulary of the contract *)
(* ===================================================================== *)

(** Under the comparator [cmp], [a] may stand before [b]. *)
Definition before {A : Type} (cmp : A -> A -> Z) (a b : A) : Prop :=
  (cmp a b <= 0)%Z.

(** A listing is newest first when every record is at least as recent as
    all that follow it; oldest first is the converse on comments. *)
Definition newest_first_sorted (l : list ServiceRequest.t) : Prop :=
  StronglySorted
    (fun a b => (ServiceRequest.createdAt b <= ServiceRequest.createdAt a)%Z) l.

Definition oldest_first_sorted (l : list Comment.t) : Prop :=
  StronglySorted
    (fun a b => (Comment.createdAt a <= Comment.createdAt b)%Z) l.

(** [q] is a substring of [field] when letter case is disregarded. *)
Definition ci_substring (q field : string) : Prop :=
  exists a b : string,
    Js.toLowerCase field = (a ++ Js.toLowerCase q ++ b)%string.

(** [q] occurs in one of the four searchable fields of [r]. *)
Definition searchable_hit (q : string) (r : ServiceRequest.t) : Prop :=
  ci_substring q (ServiceRequest.customerContact r)
  \/ ci_substring q (ServiceRequest.serialNumber r)
  \/ ci_substring q (ServiceRequest.customerName r)
  \/ ci_substring q (ServiceRequest.productName r).


(** A store whose keys are distinct and are the ids of the records they
    hold: what [createServiceRequest] builds, and what every update that
    leaves [id] alone keeps. *)
Definition coherent (s : MemStorage.t) : Prop :=
  NoDup (Js.map_keys (MemStorage.serviceRequests s))
  /\ forall k r, In (k, r) (MemStorage.serviceRequests s) -> ServiceRequest.id r = k.


(** An operation that leaves the [id] property of every record alone: all
    but an update whose fields carry an [id]. *)
Definition keeps_id (o : History.op) : bool :=
  match o with
  | History.Update _ updates _ =>
      match PartialServiceRequest.id updates with
      | Some _ => false
      | None => true
      end
  | _ => true
  end.

(** The properties the insert schema of a service request names. *)
Definition insert_keys : list string :=
  [ "productName"; "serialNumber"; "customerName"; "customerContact";
    "issueDescription"; "status"; "attachments" ].

(** The five it requires. *)
Definition required_keys : list string :=
  [ "productName"; "serialNumber"; "customerName"; "customerContact";
    "issueDescription" ].

(** A query with none of the three characters a [LIKE] pattern reads
    specially. *)
Definition plain_char (c : ascii) : bool :=
  negb (Ascii.eqb c "%" || Ascii.eqb c "_" || Ascii.eqb c "\").

Fixpoint plain (q : string) : bool :=
  match q with
  | EmptyString => true
  | String c q' => plain_char c && plain q'
  end.

(** The tables that hold what an in-process store holds. *)
Definition db_of (s : MemStorage.t) : DatabaseStorage.t :=
  DatabaseStorage.mk (Js.map_values (MemStorage.serviceRequests s))
                     (Js.map_values (MemStorage.comments s)).

(** The number of stored requests a condition holds for. *)
Definition count_stored (p : ServiceRequest.t -> bool) (s : MemStorage.t) : nat :=
  List.length (filter p (Js.map_values (MemStorage.serviceRequests s))).

(** The value of a field after an update: the one the update carries, or
    the old one when it carries none. *)
Definition carried {T : Type} (u : option T) (old : T) : T :=
  match u with
  | Some v => v
  | None => old
  end.

(** Every stored request, and every stored comment, has a valid date. *)
Definition requests_valid (s : MemStorage.t) : bool :=
  forallb (fun r => Js.valid_time (ServiceRequest.createdAt r))
          (Js.map_values (MemStorage.serviceRequests s)).

Definition comments_valid (s : MemStorage.t) : bool :=
  forallb (fun c => Js.valid_time (Comment.createdAt c))
          (Js.map_values (MemStorage.comments s)).

(** An operation that stores valid dates only: its clock reading is a
    valid time, and so is the [createdAt] an update carries, if any. *)
Definition stamps_valid (o : History.op) : bool :=
  match o with
  | History.Create _ _ now => Js.valid_time now
  | History.Update _ updates now =>
      Js.valid_time now &&
      match PartialServiceRequest.createdAt updates with
      | Some d => Js.valid_time d
      | None => true
      end
  | History.AddComment _ _ now => Js.valid_time now
  end.

(** Text of ASCII characters only, on which the byte strings of this file
    and their case folding are those of the language and of the database. *)
Fixpoint ascii_text (s : string) : bool :=
  match s with
  | EmptyString => true
  | String c s' => (N_of_ascii c <? 128)%N && ascii_text s'
  end.

Definition ascii_request (r : ServiceRequest.t) : bool :=
  ascii_text (ServiceRequest.customerContact r)
  && ascii_text (ServiceRequest.serialNumber r)
  && ascii_text (ServiceRequest.customerName r)
  && ascii_text (ServiceRequest.productName r).

(** *** The records of the worked example *)

Definition pump_x : InsertServiceRequest.t :=
  InsertServiceRequest.mk "Pump-X" "SN1" "Acme" "a@x.com" "leak" None Js.Undefined.

Definition pump_x_body (status : option string) : Json.t :=
  Json.JObj
    ([ ("productName", Json.JStr "Pump-X");
       ("serialNumber", Json.JStr "SN1");
       ("customerName", Json.JStr "Acme");
       ("customerContact", Json.JStr "a@x.com");
       ("issueDescription", Json.JStr "leak") ]
     ++ match status with
        | Some v => [("status", Json.JStr v)]
        | None => []
        end).

(** The store after [POST /api/service-requests] of the example. *)
Definition store_pump_x : MemStorage.t :=
  snd (Routes.post_service_request (pump_x_body None) "id-1" 1000 MemStorage.empty).


(** The same rows in the relational variant. *)
Definition db_pump_x : DatabaseStorage.t :=
  DatabaseStorage.mk (Js.map_values (MemStorage.serviceRequests store_pump_x)) [].





(** What the client sends with a comment that has an image attached. *)
Definition comment_body : Json.t :=
  Json.JObj [ ("text", Json.JStr "hi"); ("attachments", Json.of_strings ["ref1"]) ].

(* ===================================================================== *)
(** ** Facts about [sort] *)
(* ===================================================================== *)

Section SortBy.

Context {A : Type}.
Variable cmp : A -> A -> Z.

Lemma insertBy_perm (x : A) (l : list A) :
  Permutation (Js.insertBy cmp x l) (x :: l).
Proof.
  induction l as [|y l IH]; simpl.
  - apply Permutation_refl.
  - destruct (cmp x y <=? 0)%Z.
    + apply Permutation_refl.
    + apply perm_trans with (y :: x :: l).
      * now apply perm_skip.
      * apply perm_swap.
Qed.

Lemma sortBy_perm (l : list A) : Permutation (Js.sortBy cmp l) l.
Proof.
  induction l as [|x l IH]; simpl.
  - apply perm_nil.
  - apply perm_trans with (x :: Js.sortBy cmp l).
    + apply insertBy_perm.
    + now apply perm_skip.
Qed.

Lemma sortBy_In (x : A) (l : list A) : In x (Js.sortBy cmp l) <-> In x l.
Proof.
  split; apply Permutation_in.
  - apply sortBy_perm.
  - apply Permutation_sym, sortBy_perm.
Qed.

Lemma sortBy_length (l : list A) : List.length (Js.sortBy cmp l) = List.length l.
Proof. apply Permutation_length, sortBy_perm. Qed.

Lemma insertBy_front (x : A) (l : list A) :
  Forall (before cmp x) l -> Js.insertBy cmp x l = x :: l.
Proof.
  intros H. destruct l as [|y l]; simpl; [reflexivity|].
  inversion H as [|? ? Hy _]; subst.
  unfold before in Hy. apply Z.leb_le in Hy. now rewrite Hy.
Qed.

(** The comparator is consistent on the elements that satisfy [ok]. *)
Variable ok : A -> Prop.
Hypothesis before_trans :
  forall a b c, ok a -> ok b -> ok c ->
                before cmp a b -> before cmp b c -> before cmp a c.
Hypothesis before_total : forall a b, ok a -> ok b -> ~ before cmp a b -> before cmp b a.

Lemma insertBy_sorted (x : A) (l : list A) :
  ok x -> Forall ok l ->
  StronglySorted (before cmp) l -> StronglySorted (before cmp) (Js.insertBy cmp x l).
Proof.
  intros Hx Hl Hs. induction Hs as [|y l Hs IH Hy]; simpl.
  - constructor; constructor.
  - inversion Hl as [|? ? Hoy Hol]; subst.
    assert (Hall : forall z, In z l -> ok z) by (now apply Forall_forall).
    destruct (cmp x y <=? 0)%Z eqn:E.
    + apply Z.leb_le in E.
      constructor; [now constructor|].
      constructor; [exact E|].
      apply Forall_forall. intros z Hz.
      rewrite Forall_forall in Hy.
      apply before_trans with y; auto.
    + apply Z.leb_gt in E.
      constructor; [now apply IH|].
      assert (Hyx : before cmp y x) by (apply before_total; auto; unfold before; lia).
      apply Forall_forall. intros z Hz.
      apply (Permutation_in _ (insertBy_perm x l)) in Hz.
      destruct Hz as [<-|Hz]; [exact Hyx|].
      rewrite Forall_forall in Hy. now apply Hy.
Qed.

Lemma sortBy_ok (l : list A) : Forall ok l -> Forall ok (Js.sortBy cmp l).
Proof.
  rewrite !Forall_forall. intros H x Hx. apply H. now apply sortBy_In.
Qed.

Lemma sortBy_sorted (l : list A) :
  Forall ok l -> StronglySorted (before cmp) (Js.sortBy cmp l).
Proof.
  induction 1 as [|x l Hx Hl IH]; simpl.
  - constructor.
  - apply insertBy_sorted; [exact Hx | now apply sortBy_ok | exact IH].
Qed.

(** [filter] and [sort] commute: a listing that filters before it sorts is
    the filtered full listing, in the same order. *)
Lemma filter_insertBy (p : A -> bool) (x : A) (l : list A) :
  ok x -> Forall ok l ->
  StronglySorted (before cmp) l ->
  filter p (Js.insertBy cmp x l) =
  if p x then Js.insertBy cmp x (filter p l) else filter p l.
Proof.
  intros Hx Hl Hs. induction Hs as [|y l Hs IH Hy]; simpl.
  - now destruct (p x).
  - inversion Hl as [|? ? Hoy Hol]; subst.
    assert (Hall : forall z, In z l -> ok z) by (now apply Forall_forall).
    destruct (cmp x y <=? 0)%Z eqn:E; simpl.
    + destruct (p x) eqn:Px; [|reflexivity].
      destruct (p y) eqn:Py; simpl.
      * now rewrite E.
      * symmetry. apply insertBy_front.
        apply Z.leb_le in E.
        apply Forall_forall. intros z Hz.
        apply filter_In in Hz. destruct Hz as [Hz _].
        rewrite Forall_forall in Hy.
        apply before_trans with y; auto.
    + rewrite (IH Hol).
      destruct (p x), (p y); simpl; try reflexivity.
      now rewrite E.
Qed.

Lemma filter_sortBy (p : A -> bool) (l : list A) :
  Forall ok l -> filter p (Js.sortBy cmp l) = Js.sortBy cmp (filter p l).
Proof.
  induction 1 as [|x l Hx Hl IH]; simpl; [reflexivity|].
  rewrite filter_insertBy;
    [| exact Hx | now apply sortBy_ok | now apply (sortBy_sorted l)].
  rewrite IH. now destruct (p x).
Qed.

End SortBy.

(** A rearrangement keeps the number of elements a condition holds for. *)
Lemma filter_length_perm {A : Type} (p : A -> bool) (l l' : list A) :
  Permutation l l' -> List.length (filter p l) = List.length (filter p l').
Proof.
  induction 1 as [|x l l' _ IH|x y l|l l' l'' _ IH1 _ IH2]; simpl.
  - reflexivity.
  - destruct (p x); simpl; now rewrite IH.
  - destruct (p x), (p y); reflexivity.
  - now rewrite IH1.
Qed.

Lemma StronglySorted_impl {A : Type} (R S : A -> A -> Prop) (l : list A) :
  (forall a b, In a l -> In b l -> R a b -> S a b) ->
  StronglySorted R l -> StronglySorted S l.
Proof.
  intros HRS Hs. induction Hs as [|x l Hs IH Hx]; constructor.
  - apply IH. intros a b Ha Hb. apply HRS; now right.
  - apply Forall_forall. intros z Hz. rewrite Forall_forall in Hx.
    apply HRS; [now left | now right | now apply Hx].
Qed.

(** On valid dates the two comparators of the in-process store order by
    the time value. *)
Lemma valid_getTime (v : Z) : Js.valid_time v = true -> Js.getTime v = Some v.
Proof. unfold Js.getTime. now intros ->. Qed.

Lemma newest_first_valid (a b : ServiceRequest.t) :
  Js.valid_time (ServiceRequest.createdAt a) = true ->
  Js.valid_time (ServiceRequest.createdAt b) = true ->
  MemStorage.newest_first a b
  = (ServiceRequest.createdAt b - ServiceRequest.createdAt a)%Z.
Proof.
  intros Ha Hb. unfold MemStorage.newest_first.
  now rewrite (valid_getTime _ Ha), (valid_getTime _ Hb).
Qed.


Lemma forallb_Forall_true {A : Type} (p : A -> bool) (l : list A) :
  forallb p l = true -> Forall (fun x => p x = true) l.
Proof. intros H. apply Forall_forall. now apply forallb_forall. Qed.



Lemma filter_sort_newest_first (p : ServiceRequest.t -> bool) (l : list ServiceRequest.t) :
  forallb (fun r => Js.valid_time (ServiceRequest.createdAt r)) l = true ->
  filter p (Js.sortBy MemStorage.newest_first l) =
  Js.sortBy MemStorage.newest_first (filter p l).
Proof.
  intros Hv. apply forallb_Forall_true in Hv.
  apply filter_sortBy
    with (ok := fun r => Js.valid_time (ServiceRequest.createdAt r) = true);
    [| | exact Hv].
  - intros a b c Ha Hb Hc. unfold before.
    rewrite (newest_first_valid a b Ha Hb), (newest_first_valid b c Hb Hc),
      (newest_first_valid a c Ha Hc). lia.
  - intros a b Ha Hb. unfold before.
    rewrite (newest_first_valid a b Ha Hb), (newest_first_valid b a Hb Ha). lia.
Qed.

(** The timestamps of the relational variant are ordered as they are. *)
Lemma sort_desc_createdAt (l : list ServiceRequest.t) :
  newest_first_sorted (Js.sortBy DatabaseStorage.desc_createdAt l).
Proof.
  apply StronglySorted_impl with (R := before DatabaseStorage.desc_createdAt).
  - unfold before, DatabaseStorage.desc_createdAt. intros; lia.
  - apply sortBy_sorted with (ok := fun _ => True).
    + unfold before, DatabaseStorage.desc_createdAt. intros; lia.
    + unfold before, DatabaseStorage.desc_createdAt. intros; lia.
    + apply Forall_forall. intros; exact I.
Qed.

Lemma sort_asc_createdAt (l : list Comment.t) :
  oldest_first_sorted (Js.sortBy DatabaseStorage.asc_createdAt l).
Proof.
  apply StronglySorted_impl with (R := before DatabaseStorage.asc_createdAt).
  - unfold before, DatabaseStorage.asc_createdAt. intros; lia.
  - apply sortBy_sorted with (ok := fun _ => True).
    + unfold before, DatabaseStorage.asc_createdAt. intros; lia.
    + unfold before, DatabaseStorage.asc_createdAt. intros; lia.
    + apply Forall_forall. intros; exact I.
Qed.

(* ===================================================================== *)
(** ** Facts about strings *)
(* ===================================================================== *)

Lemma startsWith_spec (s t : string) :
  Js.startsWith s t = true <-> exists b : string, s = (t ++ b)%string.
Proof.
  revert s. induction t as [|c t IH]; intros s; simpl.
  - split; [intros _; now exists s | reflexivity].
  - destruct s as [|a s].
    + split; [discriminate | intros [b Hb]; discriminate].
    + rewrite andb_true_iff, IH, Ascii.eqb_eq. split.
      * intros [-> [b ->]]. now exists b.
      * intros [b Hb]. injection Hb as -> ->. split; [reflexivity | now exists b].
Qed.

Lemma includes_unfold (s t : string) :
  Js.includes s t =
  Js.startsWith s t ||
  match s with
  | EmptyString => false
  | String _ s' => Js.includes s' t
  end.
Proof. destruct s; reflexivity. Qed.

Lemma includes_spec (s t : string) :
  Js.includes s t = true <-> exists a b : string, s = (a ++ t ++ b)%string.
Proof.
  induction s as [|c s IH]; rewrite includes_unfold, orb_true_iff, startsWith_spec.
  - split.
    + intros [[b Hb]|H]; [|discriminate]. now exists EmptyString, b.
    + intros [a [b Hab]]. left. destruct a; [|discriminate]. now exists b.
  - rewrite IH. split.
    + intros [[b Hb]|[a [b Hab]]].
      * now exists EmptyString, b.
      * exists (String c a), b. simpl. now rewrite Hab.
    + intros [a [b Hab]]. destruct a as [|c' a]; simpl in Hab.
      * left. now exists b.
      * right. injection Hab as _ Hs. now exists a, b.
Qed.


Lemma includes_ci_substring (q field : string) :
  Js.includes (Js.toLowerCase field) (Js.toLowerCase q) = true <-> ci_substring q field.
Proof. apply includes_spec. Qed.

Lemma matches_spec (q : string) (r : ServiceRequest.t) :
  MemStorage.matches (Js.toLowerCase q) r = true <-> searchable_hit q r.
Proof.
  unfold MemStorage.matches, searchable_hit.
  rewrite !orb_true_iff, !includes_ci_substring. tauto.
Qed.

(* ===================================================================== *)
(** ** Facts about [Map] *)
(* ===================================================================== *)

Section MapFacts.

Context {V : Type}.
Implicit Types (m : Js.Map V) (k : string) (v : V).

Lemma map_get_set_eq k v m : Js.map_get k (Js.map_set k v m) = Some v.
Proof.
  induction m as [|[k' v'] m IH]; simpl.
  - now rewrite String.eqb_refl.
  - destruct (String.eqb k' k) eqn:E; simpl; rewrite E; [reflexivity | exact IH].
Qed.

Lemma map_get_set_ne k k' v m :
  k <> k' -> Js.map_get k (Js.map_set k' v m) = Js.map_get k m.
Proof.
  intros Hne. induction m as [|[k0 v0] m IH]; simpl.
  - destruct (String.eqb k' k) eqn:E; [|reflexivity].
    apply String.eqb_eq in E. congruence.
  - destruct (String.eqb k0 k') eqn:E; simpl.
    + apply String.eqb_eq in E. subst k0.
      destruct (String.eqb k' k) eqn:E'; [|reflexivity].
      apply String.eqb_eq in E'. congruence.
    + now rewrite IH.
Qed.

Lemma map_get_In k v m : Js.map_get k m = Some v -> In (k, v) m.
Proof.
  induction m as [|[k' v'] m IH]; simpl; [discriminate|].
  destruct (String.eqb k' k) eqn:E.
  - apply String.eqb_eq in E. intros [= ->]. left. now subst.
  - intros H. right. now apply IH.
Qed.

Lemma map_In_get k v m :
  NoDup (Js.map_keys m) -> In (k, v) m -> Js.map_get k m = Some v.
Proof.
  induction m as [|[k' v'] m IH]; simpl; [contradiction|].
  intros Hnd [Heq|Hin].
  - injection Heq as -> ->. now rewrite String.eqb_refl.
  - inversion Hnd as [|? ? Hnotin Hnd']; subst.
    destruct (String.eqb k' k) eqn:E.
    + apply String.eqb_eq in E. subst k'. exfalso. apply Hnotin.
      change k with (fst (k, v)). now apply in_map.
    + now apply IH.
Qed.

Lemma map_set_In k v k' v' m :
  In (k', v') (Js.map_set k v m) -> (k' = k /\ v' = v) \/ In (k', v') m.
Proof.
  induction m as [|[k0 v0] m IH]; simpl.
  - intros [[= <- <-]|[]]. now left.
  - destruct (String.eqb k0 k) eqn:E; simpl.
    + apply String.eqb_eq in E. subst k0.
      intros [[= <- <-]|Hin]; [now left | right; now right].
    + intros [Heq|Hin]; [right; now left|].
      destruct (IH Hin) as [H|H]; [now left | right; now right].
Qed.

Lemma map_keys_set_present k v v0 m :
  Js.map_get k m = Some v0 -> Js.map_keys (Js.map_set k v m) = Js.map_keys m.
Proof.
  induction m as [|[k' v'] m IH]; simpl; [discriminate|].
  destruct (String.eqb k' k) eqn:E; simpl; [reflexivity|].
  intros H. now rewrite IH.
Qed.

Lemma map_get_None_keys k m : Js.map_get k m = None -> ~ In k (Js.map_keys m).
Proof.
  induction m as [|[k' v'] m IH]; simpl; [tauto|].
  destruct (String.eqb k' k) eqn:E; [discriminate|].
  apply String.eqb_neq in E. intros H [Hk|Hk]; [congruence | now apply IH].
Qed.

Lemma map_keys_set_absent k v m :
  Js.map_get k m = None -> Js.map_keys (Js.map_set k v m) = Js.map_keys m ++ [k].
Proof.
  induction m as [|[k' v'] m IH]; simpl; [reflexivity|].
  destruct (String.eqb k' k) eqn:E; [discriminate|].
  intros H. simpl. now rewrite IH.
Qed.

Lemma map_set_keeps_NoDup k v m :
  NoDup (Js.map_keys m) -> NoDup (Js.map_keys (Js.map_set k v m)).
Proof.
  intros Hnd. destruct (Js.map_get k m) as [v0|] eqn:G.
  - now rewrite (map_keys_set_present _ _ _ _ G).
  - rewrite (map_keys_set_absent _ _ _ G).
    apply (Permutation_NoDup (Permutation_cons_append _ _)).
    constructor; [now apply map_get_None_keys | exact Hnd].
Qed.

End MapFacts.

(* ===================================================================== *)
(** ** Facts about [filter] *)
(* ===================================================================== *)

Lemma filter_filter_weaker {A : Type} (p q : A -> bool) (l : list A) :
  (forall x, p x = true -> q x = true) -> filter p (filter q l) = filter p l.
Proof.
  intros Hpq. induction l as [|x l IH]; simpl; [reflexivity|].
  destruct (q x) eqn:Q; simpl.
  - now rewrite IH.
  - destruct (p x) eqn:P; [|exact IH].
    apply Hpq in P. congruence.
Qed.


Lemma filter_split_perm {A : Type} (p : A -> bool) (l : list A) :
  Permutation (filter (fun x => negb (p x)) l ++ filter p l) l.
Proof.
  induction l as [|x l IH]; simpl; [apply perm_nil|].
  destruct (p x); simpl.
  - apply Permutation_sym, Permutation_cons_app, Permutation_sym, IH.
  - now apply perm_skip.
Qed.

(* ===================================================================== *)
(** ** Metrics *)
(* ===================================================================== *)



Lemma count_active_status (v : string) (l : list ServiceRequest.t) :
  v <> "completed" ->
  List.length
    (filter (MemStorage.has_status v)
       (Js.sortBy MemStorage.newest_first
          (filter (fun request => negb (MemStorage.is_completed request)) l)))
  = List.length (filter (MemStorage.has_status v) l).
Proof.
  intros Hv.
  rewrite (filter_length_perm _ _ _ (sortBy_perm MemStorage.newest_first _)).
  rewrite filter_filter_weaker; [reflexivity|].
  intros r Hr. unfold MemStorage.has_status in Hr. apply String.eqb_eq in Hr.
  unfold MemStorage.is_completed. rewrite Hr.
  apply negb_true_iff, String.eqb_neq, Hv.
Qed.




(* ===================================================================== *)
(** ** Listings: partition and order *)
(* ===================================================================== *)

Lemma active_is_filtered_all (s : MemStorage.t) :
  requests_valid s = true ->
  MemStorage.getActiveServiceRequests s =
  filter (fun r => negb (MemStorage.is_completed r)) (MemStorage.getAllServiceRequests s).
Proof.
  intros Hv.
  unfold MemStorage.getActiveServiceRequests, MemStorage.getAllServiceRequests.
  now rewrite filter_sort_newest_first.
Qed.

Lemma completed_is_filtered_all (s : MemStorage.t) :
  requests_valid s = true ->
  MemStorage.getCompletedServiceRequests s =
  filter MemStorage.is_completed (MemStorage.getAllServiceRequests s).
Proof.
  intros Hv.
  unfold MemStorage.getCompletedServiceRequests, MemStorage.getAllServiceRequests.
  now rewrite filter_sort_newest_first.
Qed.

(** Sorting the rows a condition holds for and those it fails for gives two
    lists that partition the sorted rows, whatever the comparator. *)
Lemma sorted_halves_partition {A : Type} (cmp : A -> A -> Z) (p : A -> bool) (l : list A) :
  Permutation
    (Js.sortBy cmp (filter (fun x => negb (p x)) l) ++ Js.sortBy cmp (filter p l))
    (Js.sortBy cmp l)
  /\ (forall x, ~ (In x (Js.sortBy cmp (filter (fun x => negb (p x)) l))
                   /\ In x (Js.sortBy cmp (filter p l))))
  /\ (forall x, In x (Js.sortBy cmp l) <->
                In x (Js.sortBy cmp (filter (fun x => negb (p x)) l))
                \/ In x (Js.sortBy cmp (filter p l)))
  /\ (forall x, In x (Js.sortBy cmp (filter (fun x => negb (p x)) l)) <->
                In x (Js.sortBy cmp l) /\ p x = false)
  /\ (forall x, In x (Js.sortBy cmp (filter p l)) <->
                In x (Js.sortBy cmp l) /\ p x = true).
Proof.
  split; [|split; [|split; [|split]]].
  - eapply perm_trans; [apply Permutation_app; apply sortBy_perm|].
    eapply perm_trans; [|apply Permutation_sym, sortBy_perm].
    apply filter_split_perm.
  - intros x. rewrite !sortBy_In, !filter_In.
    intros [[_ Ha] [_ Hc]]. rewrite Hc in Ha. discriminate.
  - intros x. rewrite !sortBy_In, !filter_In.
    destruct (p x); simpl; intuition congruence.
  - intros x. rewrite !sortBy_In, filter_In, negb_true_iff. reflexivity.
  - intros x. rewrite !sortBy_In, filter_In. reflexivity.
Qed.

Lemma listings_partition_any (s : MemStorage.t) :
  Permutation
    (MemStorage.getActiveServiceRequests s ++ MemStorage.getCompletedServiceRequests s)
    (MemStorage.getAllServiceRequests s)
  /\ (forall r, ~ (In r (MemStorage.getActiveServiceRequests s)
                   /\ In r (MemStorage.getCompletedServiceRequests s)))
  /\ (forall r, In r (MemStorage.getAllServiceRequests s) <->
                In r (MemStorage.getActiveServiceRequests s)
                \/ In r (MemStorage.getCompletedServiceRequests s)).
Proof.
  destruct (sorted_halves_partition MemStorage.newest_first MemStorage.is_completed
              (Js.map_values (MemStorage.serviceRequests s)))
    as (Hperm & Hdisj & Hcover & _).
  repeat split; try assumption; now apply Hcover.
Qed.

(** C5: the active and the completed listing partition the full listing,
    in every state a sequence of creations and updates reaches in the
    in-process store and on any tables of the relational one: together the
    two are a rearrangement of the full listing, no record is in both, a
    record of the full listing is in one of the two, the active listing
    holds the records of the full listing whose status is not "completed"
    and the completed listing those whose status is. *)
Theorem listings_partition (ops : list History.op) (db : DatabaseStorage.t) :
  let s := History.run ops in
  (Permutation
     (MemStorage.getActiveServiceRequests s ++ MemStorage.getCompletedServiceRequests s)
     (MemStorage.getAllServiceRequests s)
   /\ (forall r, ~ (In r (MemStorage.getActiveServiceRequests s)
                    /\ In r (MemStorage.getCompletedServiceRequests s)))
   /\ (forall r, In r (MemStorage.getAllServiceRequests s) <->
                 In r (MemStorage.getActiveServiceRequests s)
                 \/ In r (MemStorage.getCompletedServiceRequests s))
   /\ (forall r, In r (MemStorage.getActiveServiceRequests s) <->
                 In r (MemStorage.getAllServiceRequests s)
                 /\ String.eqb (ServiceRequest.status r) "completed" = false)
   /\ (forall r, In r (MemStorage.getCompletedServiceRequests s) <->
                 In r (MemStorage.getAllServiceRequests s)
                 /\ String.eqb (ServiceRequest.status r) "completed" = true))
  /\ (Permutation
        (DatabaseStorage.getActiveServiceRequests db
         ++ DatabaseStorage.getCompletedServiceRequests db)
        (DatabaseStorage.getAllServiceRequests db)
      /\ (forall r, ~ (In r (DatabaseStorage.getActiveServiceRequests db)
                       /\ In r (DatabaseStorage.getCompletedServiceRequests db)))
      /\ (forall r, In r (DatabaseStorage.getAllServiceRequests db) <->
                    In r (DatabaseStorage.getActiveServiceRequests db)
                    \/ In r (DatabaseStorage.getCompletedServiceRequests db))
      /\ (forall r, In r (DatabaseStorage.getActiveServiceRequests db) <->
                    In r (DatabaseStorage.getAllServiceRequests db)
                    /\ String.eqb (ServiceRequest.status r) "completed" = false)
      /\ (forall r, In r (DatabaseStorage.getCompletedServiceRequests db) <->
                    In r (DatabaseStorage.getAllServiceRequests db)
                    /\ String.eqb (ServiceRequest.status r) "completed" = true)).
Proof.
  intros s. split.
  - exact (sorted_halves_partition MemStorage.newest_first MemStorage.is_completed
             (Js.map_values (MemStorage.serviceRequests s))).
  - exact (sorted_halves_partition DatabaseStorage.desc_createdAt
             (fun r => String.eqb (ServiceRequest.status r) "completed")
             (DatabaseStorage.serviceRequests db)).
Qed.

(** The relational variant selects by the same two conditions. *)
Lemma db_listings_partition (db : DatabaseStorage.t) :
  Permutation
    (DatabaseStorage.getActiveServiceRequests db
     ++ DatabaseStorage.getCompletedServiceRequests db)
    (DatabaseStorage.getAllServiceRequests db).
Proof.
  unfold DatabaseStorage.getActiveServiceRequests,
    DatabaseStorage.getCompletedServiceRequests,
    DatabaseStorage.getAllServiceRequests, Sql.orderBy.
  eapply perm_trans; [apply Permutation_app; apply sortBy_perm|].
  eapply perm_trans; [|apply Permutation_sym, sortBy_perm].
  apply (filter_split_perm
           (fun r => String.eqb (ServiceRequest.status r) "completed")).
Qed.

(** [ORDER BY] gives the two orders in the relational variant. *)
Lemma db_listings_order (db : DatabaseStorage.t) (id : string) :
  oldest_first_sorted (DatabaseStorage.getCommentsByServiceRequestId id db)
  /\ newest_first_sorted (DatabaseStorage.getAllServiceRequests db)
  /\ newest_first_sorted (DatabaseStorage.getActiveServiceRequests db)
  /\ newest_first_sorted (DatabaseStorage.getCompletedServiceRequests db).
Proof.
  repeat split; first [apply sort_desc_createdAt | apply sort_asc_createdAt].
Qed.

(** The two orders are opposite: three comments and three requests stamped
    1, 2, 3 come back as 1, 2, 3 and as 3, 2, 1. *)
Example orders_on_three_records :
  let s :=
    History.run
      [ History.Create pump_x "r1" 1; History.Create pump_x "r2" 2;
        History.Create pump_x "r3" 3;
        History.AddComment (InsertComment.mk "r1" "a") "c1" 1;
        History.AddComment (InsertComment.mk "r1" "b") "c2" 2;
        History.AddComment (InsertComment.mk "r1" "c") "c3" 3 ] in
  map Comment.createdAt (MemStorage.getCommentsByServiceRequestId "r1" s) = [1; 2; 3]%Z
  /\ map ServiceRequest.createdAt (MemStorage.getAllServiceRequests s) = [3; 2; 1]%Z.
Proof. split; reflexivity. Qed.

(* ===================================================================== *)
(** ** Search *)
(* ===================================================================== *)

Lemma like_match_anyseq (s : string) : Sql.like_match [Sql.AnySeq] s = true.
Proof. induction s as [|c s IH]; [reflexivity | exact IH]. Qed.




(** The route never hands the empty query to the store. *)
Example get_search_rejects_empty (s : MemStorage.t) :
  Routes.get_search (Some "") s = Routes.Fail 400 "Search query is required"
  /\ Routes.get_search None s = Routes.Fail 400 "Search query is required".
Proof. split; reflexivity. Qed.

(** In the in-process store a request is selected exactly when the query
    occurs, letter case disregarded, in one of its four searchable
    fields. *)
Lemma mem_search_spec (q : string) (s : MemStorage.t) (r : ServiceRequest.t) :
  In r (MemStorage.searchServiceRequests q s) <->
  In r (Js.map_values (MemStorage.serviceRequests s)) /\ searchable_hit q r.
Proof.
  unfold MemStorage.searchServiceRequests.
  now rewrite sortBy_In, filter_In, matches_spec.
Qed.

(** C7 at the query [%]: the relational variant pastes the query into the
    [ILIKE] pattern, where [%] is a wildcard, and returns the stored
    request although [%] occurs in none of its four fields; the in-process
    store returns nothing for the same query. *)
Theorem db_search_percent_matches_all :
  DatabaseStorage.searchServiceRequests "%" db_pump_x =
    Some (DatabaseStorage.serviceRequests db_pump_x)
  /\ List.length (DatabaseStorage.serviceRequests db_pump_x) = 1
  /\ (forall r, In r (DatabaseStorage.serviceRequests db_pump_x) ->
                ~ searchable_hit "%" r)
  /\ MemStorage.searchServiceRequests "%" store_pump_x = [].
Proof.
  split; [reflexivity|]. split; [reflexivity|]. split; [|reflexivity].
  intros r [<-|[]] Hhit.
  apply matches_spec in Hhit. vm_compute in Hhit. discriminate.
Qed.

(** The same with [_], which stands for any one character. *)
Example db_search_underscore :
  DatabaseStorage.searchServiceRequests "p_mp" db_pump_x =
    Some (DatabaseStorage.serviceRequests db_pump_x)
  /\ MemStorage.searchServiceRequests "p_mp" store_pump_x = [].
Proof. split; reflexivity. Qed.

(* ===================================================================== *)
(** ** Creation *)
(* ===================================================================== *)

(** C2, as the code has it: an omitted status gives "new" and a supplied
    non-empty status is stored as supplied; attachments that are omitted, or
    null, give the empty sequence, and a supplied array is stored as it is;
    the record is stored under its identifier; and the insert schema accepts
    any string as a status, so that POST answers 201 with that status when
    it is not empty. *)
Theorem create_defaults (ins : InsertServiceRequest.t) (uuid : string) (now : Z)
    (s : MemStorage.t) :
  let r := fst (MemStorage.createServiceRequest ins uuid now s) in
  let s' := snd (MemStorage.createServiceRequest ins uuid now s) in
  (InsertServiceRequest.status ins = None -> ServiceRequest.status r = "new")
  /\ (forall v, InsertServiceRequest.status ins = Some v -> v <> "" ->
                ServiceRequest.status r = v)
  /\ (InsertServiceRequest.attachments ins = Js.Undefined ->
      ServiceRequest.attachments r = Some [])
  /\ (InsertServiceRequest.attachments ins = Js.Null ->
      ServiceRequest.attachments r = Some [])
  /\ (forall l, InsertServiceRequest.attachments ins = Js.Val l ->
                ServiceRequest.attachments r = Some l)
  /\ MemStorage.getServiceRequest uuid s' = Some r
  /\ (forall v, Schema.insertServiceRequestSchema_parse (pump_x_body (Some v)) =
                Some (InsertServiceRequest.mk "Pump-X" "SN1" "Acme" "a@x.com" "leak"
                        (Some v) Js.Undefined))
  /\ (forall v, v <> "" ->
        exists r0,
          fst (Routes.post_service_request (pump_x_body (Some v)) uuid now s)
            = Routes.Reply 201 r0
          /\ ServiceRequest.status r0 = v).
Proof.
  simpl. repeat split.
  - now intros ->.
  - intros v -> Hv. simpl. apply String.eqb_neq in Hv. now rewrite Hv.
  - now intros ->.
  - now intros ->.
  - now intros l ->.
  - apply map_get_set_eq.
  - intros v Hv. eexists. split; [reflexivity|].
    simpl. apply String.eqb_neq in Hv. now rewrite Hv.
Qed.

(** C2 fails as stated: the request posted with the status "pending" is
    accepted and stored with that status, which is none of the five
    enumerated values; and the request posted with the empty status is
    accepted and stored with the status "new", not the one supplied. *)
Lemma create_status_outside_enumeration :
  (exists r : ServiceRequest.t,
     fst (Routes.post_service_request (pump_x_body (Some "pending")) "id-1" 1000
            MemStorage.empty) = Routes.Reply 201 r
     /\ ServiceRequest.status r = "pending"
     /\ Schema.is_status (ServiceRequest.status r) = false)
  /\ (exists r : ServiceRequest.t,
        fst (Routes.post_service_request (pump_x_body (Some "")) "id-1" 1000
               MemStorage.empty) = Routes.Reply 201 r
        /\ ServiceRequest.status r = "new").
Proof. split; eexists; repeat split. Qed.

Lemma create_defaults_example :
  ServiceRequest.status
    (fst (MemStorage.createServiceRequest pump_x "id-1" 1000 MemStorage.empty)) = "new"
  /\ ServiceRequest.attachments
       (fst (MemStorage.createServiceRequest pump_x "id-1" 1000 MemStorage.empty)) = Some [].
Proof.
  split.
  - exact (proj1 (create_defaults pump_x "id-1" 1000 MemStorage.empty) eq_refl).
  - exact (proj1 (proj2 (proj2 (create_defaults pump_x "id-1" 1000 MemStorage.empty)))
             eq_refl).
Defined.

(* ===================================================================== *)
(** ** Update *)
(* ===================================================================== *)

(** C6: an update of an identifier the store does not hold returns the
    "not found" signal, which the route answers with 404, and the store is
    left as it was. *)
Theorem update_absent_id (s : MemStorage.t) (id : string)
    (updates : PartialServiceRequest.t) (now : Z) :
  MemStorage.getServiceRequest id s = None ->
  MemStorage.updateServiceRequest id updates now s = (None, s)
  /\ Routes.patch_service_request id updates now s =
     (Routes.Fail 404 "Service request not found", s).
Proof.
  unfold MemStorage.getServiceRequest, Routes.patch_service_request,
    MemStorage.updateServiceRequest.
  intros ->. split; reflexivity.
Qed.

Lemma update_absent_id_example :
  MemStorage.updateServiceRequest "id-2" (PartialServiceRequest.of_status "completed")
    2000 store_pump_x = (None, store_pump_x)
  /\ Routes.patch_service_request "id-2" (PartialServiceRequest.of_status "completed")
       2000 store_pump_x = (Routes.Fail 404 "Service request not found", store_pump_x).
Proof.
  apply (update_absent_id store_pump_x "id-2"
           (PartialServiceRequest.of_status "completed") 2000).
  reflexivity.
Defined.

(** The relational variant: no row has the identifier, no row changes. *)
Lemma db_update_absent_id (db : DatabaseStorage.t) (id : string)
    (updates : PartialServiceRequest.t) (now : Z) :
  DatabaseStorage.sendable updates = true ->
  DatabaseStorage.getServiceRequest id db = None ->
  DatabaseStorage.updateServiceRequest id updates now db = Some (None, db).
Proof.
  unfold DatabaseStorage.getServiceRequest, DatabaseStorage.updateServiceRequest.
  intros -> Hnone. simpl.
  destruct (filter _ (DatabaseStorage.serviceRequests db)); [reflexivity | discriminate].
Qed.




(** The relational variant sets the same fields. *)
Example db_update_rewrites_createdAt :
  option_map
    (fun result => map ServiceRequest.createdAt (DatabaseStorage.serviceRequests (snd result)))
    (DatabaseStorage.updateServiceRequest "id-1"
       (PartialServiceRequest.of_createdAt 0) 2000 db_pump_x)
  = Some [0%Z].
Proof. reflexivity. Qed.


(* ===================================================================== *)
(** ** Comments *)
(* ===================================================================== *)

(** A comment, as the schema shapes it, has no [attachments] property. *)
Lemma comment_has_no_attachments (c : Comment.t) :
  Json.get "attachments" (Comment.toJSON c) = None.
Proof. reflexivity. Qed.

(** C4 at the body the client sends, [{ text, attachments: [ref1] }]: the
    comment is accepted, the validation strips [attachments], and neither
    the created comment nor the one listed afterwards has the property. *)
Theorem comment_attachments_dropped :
  fst (Routes.post_comment "id-1" comment_body "c-1" 2000 store_pump_x) =
    Routes.Reply 201 (Comment.mk "c-1" "id-1" "hi" 2000)
  /\ Json.get "attachments" comment_body = Some (Json.of_strings ["ref1"])
  /\ Json.has "attachments" (Comment.toJSON (Comment.mk "c-1" "id-1" "hi" 2000)) = false
  /\ map (fun c => Json.has "attachments" (Comment.toJSON c))
       (MemStorage.getCommentsByServiceRequestId "id-1"
          (snd (Routes.post_comment "id-1" comment_body "c-1" 2000 store_pump_x)))
     = [false].
Proof. repeat split. Qed.

(** Without [attachments] in the body nothing is defaulted either. *)
Example comment_attachments_not_defaulted :
  map (fun c => Json.get "attachments" (Comment.toJSON c))
    (MemStorage.getCommentsByServiceRequestId "id-1"
       (snd (Routes.post_comment "id-1" (Json.JObj [("text", Json.JStr "hi")]) "c-1" 2000
               store_pump_x)))
  = [None].
Proof. reflexivity. Qed.

(* ===================================================================== *)
(** ** Attachment append *)
(* ===================================================================== *)

Lemma find_by_id (s : MemStorage.t) (id : string) (r : ServiceRequest.t) :
  coherent s ->
  MemStorage.getServiceRequest id s = Some r ->
  find (fun r => String.eqb (ServiceRequest.id r) id) (MemStorage.getAllServiceRequests s)
  = Some r.
Proof.
  unfold MemStorage.getServiceRequest, MemStorage.getAllServiceRequests.
  intros [Hnd Hid] Hget.
  destruct (find _ _) as [x|] eqn:F.
  - apply find_some in F. destruct F as [Hin Hx].
    apply String.eqb_eq in Hx.
    apply sortBy_In, in_map_iff in Hin. destruct Hin as [[k v] [Hv Hin]].
    simpl in Hv. subst v.
    assert (k = id) by (rewrite <- (Hid _ _ Hin); exact Hx). subst k.
    apply (map_In_get _ _ _ Hnd) in Hin. congruence.
  - exfalso.
    assert (Hin : In (id, r) (MemStorage.serviceRequests s)) by now apply map_get_In.
    assert (Hr : In r (Js.sortBy MemStorage.newest_first
                         (Js.map_values (MemStorage.serviceRequests s)))).
    { apply sortBy_In. change r with (snd (id, r)). now apply in_map. }
    apply (find_none _ _ F) in Hr. simpl in Hr.
    rewrite (Hid _ _ Hin), String.eqb_refl in Hr. discriminate.
Qed.



(** Coherence is what the operations build: it holds in every state
    reached without an update that rewrites an [id]. *)
Lemma coherent_step (s : MemStorage.t) (o : History.op) :
  coherent s -> keeps_id o = true -> coherent (History.step s o).
Proof.
  intros [Hnd Hid] Hk.
  destruct o as [ins uuid now | id updates now | ins uuid now]; simpl.
  - split; simpl.
    + now apply map_set_keeps_NoDup.
    + intros k r Hin. apply map_set_In in Hin.
      destruct Hin as [[-> ->]|Hin]; [reflexivity | now apply Hid].
  - unfold MemStorage.updateServiceRequest.
    destruct (Js.map_get id (MemStorage.serviceRequests s)) as [existing|] eqn:G; simpl.
    + split; simpl.
      * now apply map_set_keeps_NoDup.
      * intros k r Hin. apply map_set_In in Hin. destruct Hin as [[-> ->]|Hin].
        -- simpl in *. destruct (PartialServiceRequest.id updates); [discriminate|].
           apply (Hid _ _ (map_get_In _ _ _ G)).
        -- now apply Hid.
    + now split.
  - now split.
Qed.

Lemma coherent_fold (ops : list History.op) (s : MemStorage.t) :
  coherent s -> forallb keeps_id ops = true -> coherent (fold_left History.step ops s).
Proof.
  revert s. induction ops as [|o ops IH]; intros s Hco Hops; simpl in *; [exact Hco|].
  apply andb_true_iff in Hops. destruct Hops as [Ho Hops].
  apply IH; [now apply coherent_step | exact Hops].
Qed.

Lemma coherent_run (ops : list History.op) :
  forallb keeps_id ops = true -> coherent (History.run ops).
Proof.
  apply coherent_fold. split; [constructor | intros k r []].
Qed.

Lemma coherent_store_pump_x : coherent store_pump_x.
Proof.
  split.
  - vm_compute. repeat constructor. intros [].
  - intros k r [[= <- <-]|[]]. reflexivity.
Defined.



(* ===================================================================== *)
(** ** Further properties of the in-process store *)
(* ===================================================================== *)

Section MapCounting.

Context {V : Type}.
Implicit Types (m : Js.Map V) (k : string) (v : V).

Lemma map_values_set_absent k v m :
  Js.map_get k m = None -> Js.map_values (Js.map_set k v m) = Js.map_values m ++ [v].
Proof.
  unfold Js.map_values.
  induction m as [|[k' v'] m IH]; simpl; [reflexivity|].
  destruct (String.eqb k' k) eqn:E; [discriminate|].
  intros H. simpl. now rewrite IH.
Qed.

Lemma map_values_set_length k v v0 m :
  Js.map_get k m = Some v0 ->
  List.length (Js.map_values (Js.map_set k v m)) = List.length (Js.map_values m).
Proof.
  unfold Js.map_values. rewrite !length_map.
  induction m as [|[k' v'] m IH]; simpl; [discriminate|].
  destruct (String.eqb k' k) eqn:E; simpl; [reflexivity|].
  intros H. now rewrite IH.
Qed.

(** Replacing the value under a present key moves one unit of every count
    from the old value to the new one. *)
Lemma map_set_count (p : V -> bool) k v v0 m :
  Js.map_get k m = Some v0 ->
  List.length (filter p (Js.map_values (Js.map_set k v m))) + (if p v0 then 1 else 0)
  = List.length (filter p (Js.map_values m)) + (if p v then 1 else 0).
Proof.
  unfold Js.map_values.
  induction m as [|[k' v'] m IH]; simpl; [discriminate|].
  destruct (String.eqb k' k) eqn:E; simpl.
  - intros [= ->]. destruct (p v), (p v0); simpl; lia.
  - intros H. specialize (IH H). destruct (p v'); simpl; lia.
Qed.

End MapCounting.

Lemma active_length (s : MemStorage.t) :
  List.length (MemStorage.getActiveServiceRequests s)
  = count_stored (fun r => negb (MemStorage.is_completed r)) s.
Proof. apply sortBy_length. Qed.

Lemma completed_length (s : MemStorage.t) :
  List.length (MemStorage.getCompletedServiceRequests s)
  = count_stored MemStorage.is_completed s.
Proof. apply sortBy_length. Qed.

(** X1: creation stores the record under the generated identifier, stamps
    both dates with the current time, and touches neither another request
    nor any comment. *)
Theorem create_lookup (ins : InsertServiceRequest.t) (uuid : string) (now : Z)
    (s : MemStorage.t) :
  let r := fst (MemStorage.createServiceRequest ins uuid now s) in
  let s' := snd (MemStorage.createServiceRequest ins uuid now s) in
  MemStorage.getServiceRequest uuid s' = Some r
  /\ ServiceRequest.id r = uuid
  /\ ServiceRequest.createdAt r = now
  /\ ServiceRequest.updatedAt r = now
  /\ (forall id, id <> uuid ->
        MemStorage.getServiceRequest id s' = MemStorage.getServiceRequest id s)
  /\ (forall id, MemStorage.getCommentsByServiceRequestId id s'
                 = MemStorage.getCommentsByServiceRequestId id s).
Proof.
  simpl. unfold MemStorage.getServiceRequest. simpl.
  repeat split.
  - apply map_get_set_eq.
  - intros id Hne. now apply map_get_set_ne.
Qed.

(** X2: under an identifier the store does not hold yet, creation adds
    exactly one record to the full listing: the new listing is a
    rearrangement of the new record and the old listing. *)
Theorem create_fresh_listing (ins : InsertServiceRequest.t) (uuid : string) (now : Z)
    (s : MemStorage.t) :
  MemStorage.getServiceRequest uuid s = None ->
  let r := fst (MemStorage.createServiceRequest ins uuid now s) in
  let s' := snd (MemStorage.createServiceRequest ins uuid now s) in
  Permutation (MemStorage.getAllServiceRequests s') (r :: MemStorage.getAllServiceRequests s)
  /\ List.length (MemStorage.getAllServiceRequests s')
     = S (List.length (MemStorage.getAllServiceRequests s)).
Proof.
  unfold MemStorage.getServiceRequest. intros Hfresh. simpl.
  unfold MemStorage.getAllServiceRequests. simpl.
  rewrite (map_values_set_absent _ _ _ Hfresh).
  assert (Hperm : Permutation
            (Js.sortBy MemStorage.newest_first
               (Js.map_values (MemStorage.serviceRequests s)
                ++ [fst (MemStorage.createServiceRequest ins uuid now s)]))
            (fst (MemStorage.createServiceRequest ins uuid now s)
             :: Js.sortBy MemStorage.newest_first
                  (Js.map_values (MemStorage.serviceRequests s)))).
  { eapply perm_trans; [apply sortBy_perm|].
    eapply perm_trans; [apply Permutation_sym, Permutation_cons_append|].
    apply perm_skip, Permutation_sym, sortBy_perm. }
  split; [exact Hperm|].
  apply (Permutation_length Hperm).
Qed.

Lemma create_fresh_listing_example :
  List.length
    (MemStorage.getAllServiceRequests
       (snd (MemStorage.createServiceRequest pump_x "id-2" 2000 store_pump_x)))
  = S (List.length (MemStorage.getAllServiceRequests store_pump_x)).
Proof.
  exact (proj2 (create_fresh_listing pump_x "id-2" 2000 store_pump_x eq_refl)).
Defined.

(** X3: an update of a stored request returns and stores the merged
    record, and the route answers 200 with it: each field is the one the
    update carries, or the old one when the update carries none, except
    [updatedAt], which is the current time whatever the update carries; no
    other request changes, the number of stored requests stays, and the
    comments are untouched. *)
Theorem update_existing (s : MemStorage.t) (id : string) (r : ServiceRequest.t)
    (updates : PartialServiceRequest.t) (now : Z) :
  MemStorage.getServiceRequest id s = Some r ->
  exists r' s',
    MemStorage.updateServiceRequest id updates now s = (Some r', s')
    /\ Routes.patch_service_request id updates now s = (Routes.Reply 200 r', s')
    /\ MemStorage.getServiceRequest id s' = Some r'
    /\ r' = MemStorage.merge r updates now
    /\ ServiceRequest.updatedAt r' = now
    /\ ServiceRequest.id r'
       = carried (PartialServiceRequest.id updates) (ServiceRequest.id r)
    /\ ServiceRequest.productName r'
       = carried (PartialServiceRequest.productName updates) (ServiceRequest.productName r)
    /\ ServiceRequest.serialNumber r'
       = carried (PartialServiceRequest.serialNumber updates) (ServiceRequest.serialNumber r)
    /\ ServiceRequest.customerName r'
       = carried (PartialServiceRequest.customerName updates) (ServiceRequest.customerName r)
    /\ ServiceRequest.customerContact r'
       = carried (PartialServiceRequest.customerContact updates)
           (ServiceRequest.customerContact r)
    /\ ServiceRequest.issueDescription r'
       = carried (PartialServiceRequest.issueDescription updates)
           (ServiceRequest.issueDescription r)
    /\ ServiceRequest.status r'
       = carried (PartialServiceRequest.status updates) (ServiceRequest.status r)
    /\ ServiceRequest.attachments r'
       = carried (PartialServiceRequest.attachments updates) (ServiceRequest.attachments r)
    /\ ServiceRequest.createdAt r'
       = carried (PartialServiceRequest.createdAt updates) (ServiceRequest.createdAt r)
    /\ (forall id', id' <> id ->
          MemStorage.getServiceRequest id' s' = MemStorage.getServiceRequest id' s)
    /\ List.length (MemStorage.getAllServiceRequests s')
       = List.length (MemStorage.getAllServiceRequests s)
    /\ MemStorage.comments s' = MemStorage.comments s.
Proof.
  unfold MemStorage.getServiceRequest, Routes.patch_service_request,
    MemStorage.updateServiceRequest.
  intros Hget. rewrite Hget. do 2 eexists.
  split; [reflexivity|]. split; [reflexivity|]. simpl.
  split; [apply map_get_set_eq|].
  do 11 (split; [reflexivity|]).
  split; [intros id' Hne; now apply map_get_set_ne|].
  split; [|reflexivity].
  unfold MemStorage.getAllServiceRequests. simpl. rewrite !sortBy_length.
  apply (map_values_set_length _ _ _ _ Hget).
Qed.

Lemma update_existing_example :
  exists r' s',
    MemStorage.updateServiceRequest "id-1" (PartialServiceRequest.of_status "inspection")
      2000 store_pump_x = (Some r', s')
    /\ ServiceRequest.updatedAt r' = 2000%Z
    /\ ServiceRequest.productName r' = "Pump-X".
Proof.
  destruct (update_existing store_pump_x "id-1"
              (fst (MemStorage.createServiceRequest pump_x "id-1" 1000 MemStorage.empty))
              (PartialServiceRequest.of_status "inspection") 2000 eq_refl)
    as (r' & s' & Hu & _ & _ & _ & Ht & _ & Hp & _).
  exists r', s'. split; [exact Hu|]. split; [exact Ht|]. exact Hp.
Defined.

(** X4: marking an active request completed takes it out of the active
    listing and puts it into the completed one: the active listing and
    [totalActive] lose one, the completed listing gains one, and the stored
    record is in the completed listing only. *)
Theorem complete_moves (s : MemStorage.t) (id : string) (r : ServiceRequest.t) (now : Z) :
  MemStorage.getServiceRequest id s = Some r ->
  ServiceRequest.status r <> "completed" ->
  let s' :=
    snd (MemStorage.updateServiceRequest id (PartialServiceRequest.of_status "completed")
           now s) in
  S (List.length (MemStorage.getActiveServiceRequests s'))
    = List.length (MemStorage.getActiveServiceRequests s)
  /\ List.length (MemStorage.getCompletedServiceRequests s')
     = S (List.length (MemStorage.getCompletedServiceRequests s))
  /\ S (MemStorage.totalActive (MemStorage.getMetrics s'))
     = MemStorage.totalActive (MemStorage.getMetrics s)
  /\ exists r', MemStorage.getServiceRequest id s' = Some r'
                /\ In r' (MemStorage.getCompletedServiceRequests s')
                /\ ~ In r' (MemStorage.getActiveServiceRequests s').
Proof.
  unfold MemStorage.getServiceRequest. intros Hget Hst.
  unfold MemStorage.updateServiceRequest. rewrite Hget. simpl.
  set (r' := MemStorage.merge r (PartialServiceRequest.of_status "completed") now).
  assert (Hr : MemStorage.is_completed r = false)
    by (now apply String.eqb_neq).
  assert (Hr' : MemStorage.is_completed r' = true) by reflexivity.
  pose proof (map_set_count (fun x => negb (MemStorage.is_completed x))
                id r' r _ Hget) as Ha.
  pose proof (map_set_count MemStorage.is_completed id r' r _ Hget) as Hc.
  cbv beta in Ha, Hc. rewrite Hr, Hr' in Ha, Hc. simpl in Ha, Hc.
  rewrite !active_length, !completed_length. unfold count_stored. simpl.
  repeat split; try lia.
  exists r'. split; [apply map_get_set_eq|]. split.
  - apply sortBy_In, filter_In. split; [|exact Hr'].
    change r' with (snd (id, r')). apply in_map, map_get_In, map_get_set_eq.
  - intros Hin. apply sortBy_In, filter_In in Hin.
    destruct Hin as [_ Hin]. rewrite Hr' in Hin. discriminate.
Qed.

Lemma complete_moves_example :
  List.length
    (MemStorage.getCompletedServiceRequests
       (snd (MemStorage.updateServiceRequest "id-1"
               (PartialServiceRequest.of_status "completed") 2000 store_pump_x)))
  = S (List.length (MemStorage.getCompletedServiceRequests store_pump_x)).
Proof.
  refine (proj1 (proj2 (complete_moves store_pump_x "id-1"
            (fst (MemStorage.createServiceRequest pump_x "id-1" 1000 MemStorage.empty))
            2000 eq_refl _))).
  vm_compute. discriminate.
Defined.

(** X5: giving a completed request any other status moves it back: the
    completed listing loses one, the active listing and [totalActive] gain
    one. *)
Theorem reopen_moves (s : MemStorage.t) (id : string) (r : ServiceRequest.t)
    (status : string) (now : Z) :
  MemStorage.getServiceRequest id s = Some r ->
  ServiceRequest.status r = "completed" ->
  status <> "completed" ->
  let s' :=
    snd (MemStorage.updateServiceRequest id (PartialServiceRequest.of_status status)
           now s) in
  List.length (MemStorage.getActiveServiceRequests s')
    = S (List.length (MemStorage.getActiveServiceRequests s))
  /\ S (List.length (MemStorage.getCompletedServiceRequests s'))
     = List.length (MemStorage.getCompletedServiceRequests s)
  /\ MemStorage.totalActive (MemStorage.getMetrics s')
     = S (MemStorage.totalActive (MemStorage.getMetrics s)).
Proof.
  unfold MemStorage.getServiceRequest. intros Hget Hst Hnew.
  unfold MemStorage.updateServiceRequest. rewrite Hget. simpl.
  set (r' := MemStorage.merge r (PartialServiceRequest.of_status status) now).
  assert (Hr : MemStorage.is_completed r = true)
    by (unfold MemStorage.is_completed; rewrite Hst; reflexivity).
  assert (Hr' : MemStorage.is_completed r' = false)
    by (now apply String.eqb_neq).
  pose proof (map_set_count (fun x => negb (MemStorage.is_completed x))
                id r' r _ Hget) as Ha.
  pose proof (map_set_count MemStorage.is_completed id r' r _ Hget) as Hc.
  cbv beta in Ha, Hc. rewrite Hr, Hr' in Ha, Hc. simpl in Ha, Hc.
  rewrite !active_length, !completed_length. unfold count_stored. simpl.
  repeat split; lia.
Qed.

Lemma reopen_moves_example :
  MemStorage.totalActive
    (MemStorage.getMetrics
       (snd (MemStorage.updateServiceRequest "id-1"
               (PartialServiceRequest.of_status "inspection") 3000
               (snd (MemStorage.updateServiceRequest "id-1"
                       (PartialServiceRequest.of_status "completed") 2000 store_pump_x)))))
  = S (MemStorage.totalActive
         (MemStorage.getMetrics
            (snd (MemStorage.updateServiceRequest "id-1"
                    (PartialServiceRequest.of_status "completed") 2000 store_pump_x)))).
Proof.
  refine (proj2 (proj2 (reopen_moves
            (snd (MemStorage.updateServiceRequest "id-1"
                    (PartialServiceRequest.of_status "completed") 2000 store_pump_x))
            "id-1"
            (MemStorage.merge
               (fst (MemStorage.createServiceRequest pump_x "id-1" 1000 MemStorage.empty))
               (PartialServiceRequest.of_status "completed") 2000)
            "inspection" 3000 eq_refl eq_refl _))).
  vm_compute. discriminate.
Defined.

(** X6: a request created without a status, under a fresh identifier,
    raises [totalActive] and [newComplaints] by one and leaves the other
    three counters as they were. *)
Theorem create_counts (ins : InsertServiceRequest.t) (uuid : string) (now : Z)
    (s : MemStorage.t) :
  MemStorage.getServiceRequest uuid s = None ->
  InsertServiceRequest.status ins = None ->
  let m := MemStorage.getMetrics s in
  MemStorage.getMetrics (snd (MemStorage.createServiceRequest ins uuid now s))
  = MemStorage.mkMetrics
      (S (MemStorage.totalActive m)) (S (MemStorage.newComplaints m))
      (MemStorage.underInspection m) (MemStorage.sentToService m) (MemStorage.received m).
Proof.
  unfold MemStorage.getServiceRequest. intros Hfresh Hst.
  unfold MemStorage.getMetrics, MemStorage.getActiveServiceRequests. simpl.
  rewrite (map_values_set_absent _ _ _ Hfresh), Hst. simpl.
  rewrite !count_active_status by discriminate.
  rewrite !sortBy_length, !filter_app, !length_app. simpl.
  f_equal; lia.
Qed.

Lemma create_counts_example :
  MemStorage.getMetrics (snd (MemStorage.createServiceRequest pump_x "id-2" 2000 store_pump_x))
  = MemStorage.mkMetrics 2 2 0 0 0.
Proof.
  exact (create_counts pump_x "id-2" 2000 store_pump_x eq_refl eq_refl).
Defined.

(* ===================================================================== *)
(** ** Where a new record lands in a listing *)
(* ===================================================================== *)

Section SortEnds.

Context {A : Type}.
Variable cmp : A -> A -> Z.

(** An element every other one has to follow stays in front. *)
Lemma sortBy_snoc_first (x : A) (l : list A) :
  Forall (fun y => ~ before cmp y x) l ->
  Js.sortBy cmp (l ++ [x]) = x :: Js.sortBy cmp l.
Proof.
  induction 1 as [|y l Hy _ IH]; simpl; [reflexivity|].
  rewrite IH. simpl.
  unfold before in Hy. destruct (cmp y x <=? 0)%Z eqn:E; [|reflexivity].
  apply Z.leb_le in E. contradiction.
Qed.

Lemma insertBy_snoc (x y : A) (l : list A) :
  before cmp y x -> Js.insertBy cmp y (l ++ [x]) = Js.insertBy cmp y l ++ [x].
Proof.
  intros Hy. induction l as [|z l IH]; simpl.
  - unfold before in Hy. apply Z.leb_le in Hy. now rewrite Hy.
  - destruct (cmp y z <=? 0)%Z; [reflexivity|]. simpl. now rewrite IH.
Qed.

(** An element every other one may precede stays at the end. *)
Lemma sortBy_snoc_last (x : A) (l : list A) :
  Forall (fun y => before cmp y x) l ->
  Js.sortBy cmp (l ++ [x]) = Js.sortBy cmp l ++ [x].
Proof.
  induction 1 as [|y l Hy _ IH]; simpl; [reflexivity|].
  rewrite IH. now apply insertBy_snoc.
Qed.

End SortEnds.

(** X23: a request created under a fresh identifier at a time later than
    every stored [createdAt], as dates compare ([r.createdAt < now], which is
    false of an invalid date), heads the full listing, the rest of which is
    unchanged. *)
Theorem newest_request_heads_listing (ins : InsertServiceRequest.t) (uuid : string) (now : Z)
    (s : MemStorage.t) :
  MemStorage.getServiceRequest uuid s = None ->
  (forall r, In r (Js.map_values (MemStorage.serviceRequests s)) ->
             Js.earlier (ServiceRequest.createdAt r) now) ->
  MemStorage.getAllServiceRequests (snd (MemStorage.createServiceRequest ins uuid now s))
  = fst (MemStorage.createServiceRequest ins uuid now s)
    :: MemStorage.getAllServiceRequests s.
Proof.
  unfold MemStorage.getServiceRequest, MemStorage.getAllServiceRequests.
  intros Hfresh Hold. simpl.
  rewrite (map_values_set_absent _ _ _ Hfresh).
  apply sortBy_snoc_first. apply Forall_forall. intros y Hy.
  unfold before, MemStorage.newest_first. simpl.
  specialize (Hold y Hy). unfold Js.earlier in Hold.
  destruct (Js.getTime (ServiceRequest.createdAt y)), (Js.getTime now);
    simpl; try contradiction; lia.
Qed.

Lemma newest_request_heads_listing_example :
  MemStorage.getAllServiceRequests
    (snd (MemStorage.createServiceRequest pump_x "id-2" 2000 store_pump_x))
  = fst (MemStorage.createServiceRequest pump_x "id-2" 2000 store_pump_x)
    :: MemStorage.getAllServiceRequests store_pump_x.
Proof.
  apply (newest_request_heads_listing pump_x "id-2" 2000 store_pump_x eq_refl).
  intros r [<-|[]]. vm_compute. reflexivity.
Defined.

(** X8: a comment added under a fresh identifier, at a time no earlier than
    every stored comment, closes the listing of its request; the comment
    listings of the other requests, the stored requests and the metrics are
    unchanged.  The request it names need not exist. *)
Theorem add_comment_listing (ins : InsertComment.t) (uuid : string) (now : Z)
    (s : MemStorage.t) :
  Js.map_get uuid (MemStorage.comments s) = None ->
  (forall c, In c (Js.map_values (MemStorage.comments s)) ->
             (Comment.createdAt c <= now)%Z) ->
  let c := fst (MemStorage.createComment ins uuid now s) in
  let s' := snd (MemStorage.createComment ins uuid now s) in
  c = Comment.mk uuid (InsertComment.serviceRequestId ins) (InsertComment.text ins) now
  /\ MemStorage.getCommentsByServiceRequestId (InsertComment.serviceRequestId ins) s'
     = MemStorage.getCommentsByServiceRequestId (InsertComment.serviceRequestId ins) s
       ++ [c]
  /\ (forall id, id <> InsertComment.serviceRequestId ins ->
        MemStorage.getCommentsByServiceRequestId id s'
        = MemStorage.getCommentsByServiceRequestId id s)
  /\ MemStorage.serviceRequests s' = MemStorage.serviceRequests s
  /\ MemStorage.getMetrics s' = MemStorage.getMetrics s.
Proof.
  intros Hfresh Hold. simpl.
  unfold MemStorage.getCommentsByServiceRequestId. simpl.
  rewrite (map_values_set_absent _ _ _ Hfresh).
  split; [reflexivity|]. split; [|split; [|split; reflexivity]].
  - rewrite filter_app. simpl. rewrite String.eqb_refl.
    apply sortBy_snoc_last. apply Forall_forall. intros y Hy.
    apply filter_In in Hy. destruct Hy as [Hy _].
    unfold before, MemStorage.oldest_first, Js.getTime. simpl.
    specialize (Hold y Hy).
    destruct (Js.valid_time (Comment.createdAt y)), (Js.valid_time now); simpl; lia.
  - intros id Hne. rewrite filter_app. simpl.
    destruct (String.eqb (InsertComment.serviceRequestId ins) id) eqn:E.
    + apply String.eqb_eq in E. congruence.
    + now rewrite app_nil_r.
Qed.

Lemma add_comment_listing_example :
  MemStorage.getCommentsByServiceRequestId "no-such-request"
    (snd (MemStorage.createComment (InsertComment.mk "no-such-request" "hi") "c-1" 2000
            store_pump_x))
  = [Comment.mk "c-1" "no-such-request" "hi" 2000].
Proof.
  refine (proj1 (proj2 (add_comment_listing (InsertComment.mk "no-such-request" "hi")
                          "c-1" 2000 store_pump_x eq_refl _))).
  intros c [].
Defined.

(* ===================================================================== *)
(** ** Validation at the routes *)
(* ===================================================================== *)

(** X9: a comment is refused with 400, and nothing is stored, exactly when
    the body has no string [text].  Otherwise it is created for the request
    of the path, whatever [serviceRequestId] the body carries: over the
    in-process store the answer is always 201, whether or not that request
    exists; over the relational store it is 201 when a request has the
    identifier (and the generated one is free), and 500 with nothing stored
    when none has. *)
Theorem post_comment_validation (id : string) (o : list (string * Json.t))
    (uuid : string) (now : Z) (s : MemStorage.t) (db : DatabaseStorage.t) :
  ((forall txt, Json.get_field "text" o <> Some (Json.JStr txt)) ->
   Routes.post_comment id (Json.JObj o) uuid now s = (Routes.Fail 400 "ZodError", s)
   /\ Routes.post_comment_db id (Json.JObj o) uuid now db
      = (Routes.Fail 400 "ZodError", db))
  /\ (forall txt, Json.get_field "text" o = Some (Json.JStr txt) ->
        Routes.post_comment id (Json.JObj o) uuid now s
        = (Routes.Reply 201 (Comment.mk uuid id txt now),
           snd (MemStorage.createComment (InsertComment.mk id txt) uuid now s))
        /\ (existsb (fun r => String.eqb (ServiceRequest.id r) id)
              (DatabaseStorage.serviceRequests db) = true ->
            existsb (fun c => String.eqb (Comment.id c) uuid)
              (DatabaseStorage.comments db) = false ->
            Routes.post_comment_db id (Json.JObj o) uuid now db
            = (Routes.Reply 201 (Comment.mk uuid id txt now),
               DatabaseStorage.mk (DatabaseStorage.serviceRequests db)
                 (DatabaseStorage.comments db ++ [Comment.mk uuid id txt now])))
        /\ (existsb (fun r => String.eqb (ServiceRequest.id r) id)
              (DatabaseStorage.serviceRequests db) = false ->
            Routes.post_comment_db id (Json.JObj o) uuid now db
            = (Routes.Fail 500 "Internal server error", db))).
Proof.
  unfold Routes.post_comment, Routes.post_comment_db, Schema.insertCommentSchema_parse,
    Schema.required_string, Json.with_field, DatabaseStorage.createComment. simpl.
  split.
  - intros Hno. destruct (Json.get_field "text" o) as [[| | |txt| |]|];
      try (split; reflexivity).
    exfalso. now apply (Hno txt).
  - intros txt ->. simpl. split; [reflexivity|]. split.
    + intros -> ->. reflexivity.
    + intros ->. reflexivity.
Qed.

Lemma post_comment_validation_example :
  Routes.post_comment "id-1"
    (Json.JObj [("serviceRequestId", Json.JStr "id-9"); ("text", Json.JStr "hi")])
    "c-1" 2000 store_pump_x
  = (Routes.Reply 201 (Comment.mk "c-1" "id-1" "hi" 2000),
     snd (MemStorage.createComment (InsertComment.mk "id-1" "hi") "c-1" 2000 store_pump_x))
  /\ Routes.post_comment_db "id-2" (Json.JObj [("text", Json.JStr "hi")]) "c-1" 2000 db_pump_x
     = (Routes.Fail 500 "Internal server error", db_pump_x).
Proof.
  split.
  - exact (proj1 (proj2 (post_comment_validation "id-1"
                    [("serviceRequestId", Json.JStr "id-9"); ("text", Json.JStr "hi")]
                    "c-1" 2000 store_pump_x db_pump_x) "hi" eq_refl)).
  - exact (proj2 (proj2 (proj2 (post_comment_validation "id-2"
                    [("text", Json.JStr "hi")] "c-1" 2000 store_pump_x db_pump_x)
                    "hi" eq_refl)) eq_refl).
Defined.

(** X10: a body that lacks one of the five required properties is answered
    with 400 and nothing is stored. *)
Theorem post_request_missing_field (o : list (string * Json.t)) (k : string)
    (uuid : string) (now : Z) (s : MemStorage.t) :
  In k required_keys ->
  Json.get_field k o = None ->
  Routes.post_service_request (Json.JObj o) uuid now s = (Routes.Fail 400 "ZodError", s).
Proof.
  intros Hk Hnone.
  unfold Routes.post_service_request, Schema.insertServiceRequestSchema_parse,
    Schema.required_string.
  simpl in Hk.
  destruct Hk as [<-|[<-|[<-|[<-|[<-|[]]]]]]; rewrite Hnone;
    repeat match goal with
           | |- context [match Json.get_field ?key o with _ => _ end] =>
               destruct (Json.get_field key o) as [[]|]
           | |- context [match Schema.optional_string ?key o with _ => _ end] =>
               destruct (Schema.optional_string key o)
           | |- context [match Schema.optional_strings ?key o with _ => _ end] =>
               destruct (Schema.optional_strings key o)
           end; reflexivity.
Qed.

Lemma post_request_missing_field_example :
  Routes.post_service_request
    (Json.JObj [("productName", Json.JStr "Pump-X"); ("serialNumber", Json.JStr "SN1")])
    "id-2" 2000 store_pump_x
  = (Routes.Fail 400 "ZodError", store_pump_x).
Proof.
  apply (post_request_missing_field _ "customerName").
  - simpl. tauto.
  - reflexivity.
Defined.

(** X11: a property the insert schema does not name is stripped: the
    validated data are those of the body without it.  A client cannot choose
    [id], [createdAt] or [updatedAt] at creation. *)
Theorem insert_schema_strips (k : string) (v : Json.t) (o : list (string * Json.t)) :
  ~ In k insert_keys ->
  Schema.insertServiceRequestSchema_parse (Json.JObj ((k, v) :: o))
  = Schema.insertServiceRequestSchema_parse (Json.JObj o).
Proof.
  intros Hk.
  assert (Hget : forall key, In key insert_keys ->
            Json.get_field key ((k, v) :: o) = Json.get_field key o).
  { intros key Hin. simpl. destruct (String.eqb k key) eqn:E; [|reflexivity].
    apply String.eqb_eq in E. subst. contradiction. }
  unfold Schema.insertServiceRequestSchema_parse, Schema.required_string,
    Schema.optional_string, Schema.optional_strings.
  rewrite !Hget by (simpl; tauto). reflexivity.
Qed.

Lemma insert_schema_strips_example :
  Schema.insertServiceRequestSchema_parse
    (Json.JObj (("id", Json.JStr "chosen") :: Routes.spread (pump_x_body None)))
  = Schema.insertServiceRequestSchema_parse (pump_x_body None).
Proof.
  apply (insert_schema_strips "id").
  simpl. intros H.
  repeat (destruct H as [H|H]; [discriminate H|]). exact H.
Defined.

(* ===================================================================== *)
(** ** The two attachment routes *)
(* ===================================================================== *)

Lemma find_by_id_absent (s : MemStorage.t) (id : string) :
  coherent s ->
  MemStorage.getServiceRequest id s = None ->
  find (fun r => String.eqb (ServiceRequest.id r) id) (MemStorage.getAllServiceRequests s)
  = None.
Proof.
  unfold MemStorage.getServiceRequest, MemStorage.getAllServiceRequests.
  intros [Hnd Hid] Hget.
  destruct (find _ _) as [x|] eqn:F; [|reflexivity].
  apply find_some in F. destruct F as [Hin Hx].
  apply String.eqb_eq in Hx.
  apply sortBy_In, in_map_iff in Hin. destruct Hin as [[k v] [Hv Hin]].
  simpl in Hv. subst v.
  assert (k = id) by (rewrite <- (Hid _ _ Hin); exact Hx). subst k.
  apply (map_In_get _ _ _ Hnd) in Hin. congruence.
Qed.

(** X12: the append route answers 400 without an attachments array and,
    in a coherent store, 404 for an identifier the store does not hold; in
    both cases the store is unchanged. *)
Theorem post_attachments_rejects (s : MemStorage.t) (id : string) (now : Z) :
  coherent s ->
  Routes.post_attachments id None now s
    = (Routes.Fail 400 "Attachments array is required", s)
  /\ (MemStorage.getServiceRequest id s = None ->
      forall attachments,
        Routes.post_attachments id (Some attachments) now s
        = (Routes.Fail 404 "Service request not found", s)).
Proof.
  intros Hco. split; [reflexivity|].
  intros Hget attachments. unfold Routes.post_attachments.
  now rewrite (find_by_id_absent s id Hco Hget).
Qed.

Lemma post_attachments_rejects_example :
  Routes.post_attachments "id-2" (Some ["ref1"]) 2000 store_pump_x
  = (Routes.Fail 404 "Service request not found", store_pump_x).
Proof.
  exact (proj2 (post_attachments_rejects store_pump_x "id-2" 2000 coherent_store_pump_x)
           eq_refl ["ref1"]).
Defined.

(** X13: in a coherent store the single-attachment route (PUT) leaves the
    store exactly as the batch route (POST) called with the one normalised
    path does, and answers with the same status code; whatever the path
    normalisation is. *)
Theorem put_attachment_as_post (normalize : string -> string) (s : MemStorage.t)
    (id url : string) (now : Z) :
  coherent s ->
  url <> "" ->
  snd (Routes.put_attachment normalize id (Some url) now s)
    = snd (Routes.post_attachments id (Some [normalize url]) now s)
  /\ Routes.code (fst (Routes.put_attachment normalize id (Some url) now s))
     = Routes.code (fst (Routes.post_attachments id (Some [normalize url]) now s)).
Proof.
  intros Hco Hurl. apply String.eqb_neq in Hurl.
  unfold Routes.put_attachment, Routes.post_attachments. rewrite Hurl.
  destruct (MemStorage.getServiceRequest id s) as [r|] eqn:G.
  - rewrite (find_by_id s id r Hco G).
    unfold MemStorage.updateServiceRequest.
    unfold MemStorage.getServiceRequest in G. rewrite G. split; reflexivity.
  - rewrite (find_by_id_absent s id Hco G). split; reflexivity.
Qed.

Lemma put_attachment_as_post_example :
  snd (Routes.put_attachment (fun url => url) "id-1" (Some "/objects/a") 2000 store_pump_x)
  = snd (Routes.post_attachments "id-1" (Some ["/objects/a"]) 2000 store_pump_x).
Proof.
  refine (proj1 (put_attachment_as_post (fun url => url) store_pump_x "id-1" "/objects/a"
                   2000 coherent_store_pump_x _)).
  discriminate.
Defined.

(** X14: the single-attachment route answers 400 for a missing or empty
    URL and 404 for an identifier the store does not hold, and leaves the
    store unchanged; on a stored request it appends the normalised path
    after the attachments the request has. *)
Theorem put_attachment_cases (normalize : string -> string) (s : MemStorage.t)
    (id : string) (now : Z) :
  Routes.put_attachment normalize id None now s
    = (Routes.Fail 400 "attachmentURL is required", s)
  /\ Routes.put_attachment normalize id (Some "") now s
     = (Routes.Fail 400 "attachmentURL is required", s)
  /\ (forall url, url <> "" -> MemStorage.getServiceRequest id s = None ->
        Routes.put_attachment normalize id (Some url) now s
        = (Routes.Fail 404 "Service request not found", s))
  /\ (forall url r, url <> "" -> MemStorage.getServiceRequest id s = Some r ->
        exists r' s',
          Routes.put_attachment normalize id (Some url) now s
          = (Routes.Reply 200 (normalize url, Some r'), s')
          /\ MemStorage.getServiceRequest id s' = Some r'
          /\ ServiceRequest.attachments r'
             = Some (Js.or_nil (ServiceRequest.attachments r) ++ [normalize url])).
Proof.
  unfold Routes.put_attachment.
  split; [reflexivity|]. split; [reflexivity|]. split.
  - intros url Hurl Hget. apply String.eqb_neq in Hurl. now rewrite Hurl, Hget.
  - intros url r Hurl Hget. apply String.eqb_neq in Hurl. rewrite Hurl, Hget.
    unfold MemStorage.updateServiceRequest.
    unfold MemStorage.getServiceRequest in *. rewrite Hget.
    do 2 eexists. split; [reflexivity|]. simpl.
    split; [apply map_get_set_eq | reflexivity].
Qed.

Lemma put_attachment_cases_example :
  Routes.put_attachment (fun url => url) "id-2" (Some "/objects/a") 2000 store_pump_x
  = (Routes.Fail 404 "Service request not found", store_pump_x).
Proof.
  refine (proj1 (proj2 (proj2 (put_attachment_cases (fun url => url) store_pump_x "id-2"
                                 2000))) "/objects/a" _ eq_refl).
  discriminate.
Defined.

(** X15: coherence is an invariant of the store: in every state reached
    from the empty store by creations, comments and updates that carry no
    [id], the keys are distinct and each is the [id] of its record. *)
Theorem coherent_reachable (ops : list History.op) :
  forallb keeps_id ops = true -> coherent (History.run ops).
Proof.
  revert ops.
  assert (H : forall ops s, coherent s -> forallb keeps_id ops = true ->
                            coherent (fold_left History.step ops s)).
  { induction ops as [|o ops IH]; intros s Hco Hops; simpl in *; [exact Hco|].
    apply andb_true_iff in Hops. destruct Hops as [Ho Hops].
    apply IH; [now apply coherent_step | exact Hops]. }
  intros ops. apply H. split; [constructor | intros k r []].
Qed.

Lemma coherent_reachable_example :
  coherent
    (History.run
       [ History.Create pump_x "id-1" 1000;
         History.Update "id-1" (PartialServiceRequest.of_status "inspection") 2000;
         History.Create pump_x "id-2" 3000 ]).
Proof.
  apply (coherent_reachable
           [ History.Create pump_x "id-1" 1000;
             History.Update "id-1" (PartialServiceRequest.of_status "inspection") 2000;
             History.Create pump_x "id-2" 3000 ]).
  reflexivity.
Defined.

(** Without the condition coherence is lost: an update that carries an
    [id] leaves the record under its old key, and the append route no longer
    finds the request. *)
Example update_of_id_breaks_append :
  let s := snd (MemStorage.updateServiceRequest "id-1"
                  (PartialServiceRequest.mk (Some "id-9") None None None None None None
                     None None None) 2000 store_pump_x) in
  option_map ServiceRequest.id (MemStorage.getServiceRequest "id-1" s) = Some "id-9"
  /\ Routes.code (fst (Routes.post_attachments "id-1" (Some ["ref1"]) 3000 s)) = 404.
Proof. split; reflexivity. Qed.

(* ===================================================================== *)
(** ** Further properties of search *)
(* ===================================================================== *)

Lemma lower_char_idempotent (c : ascii) : Js.lower_char (Js.lower_char c) = Js.lower_char c.
Proof. destruct c as [[] [] [] [] [] [] [] []]; reflexivity. Qed.

Lemma toLowerCase_idempotent (s : string) :
  Js.toLowerCase (Js.toLowerCase s) = Js.toLowerCase s.
Proof.
  induction s as [|c s IH]; simpl; [reflexivity|].
  now rewrite lower_char_idempotent, IH.
Qed.

Lemma toLowerCase_app (s t : string) :
  Js.toLowerCase (s ++ t) = (Js.toLowerCase s ++ Js.toLowerCase t)%string.
Proof. induction s as [|c s IH]; simpl; [reflexivity | now rewrite IH]. Qed.

Lemma filter_perm {A : Type} (p : A -> bool) (l l' : list A) :
  Permutation l l' -> Permutation (filter p l) (filter p l').
Proof.
  induction 1 as [|x l l' _ IH|x y l|l l' l'' _ IH1 _ IH2]; simpl.
  - apply perm_nil.
  - destruct (p x); [now apply perm_skip | exact IH].
  - destruct (p x), (p y); try apply Permutation_refl. apply perm_swap.
  - now apply perm_trans with (filter p l').
Qed.

(** X16: on ASCII text, the search result holds exactly the records of the
    full listing the query occurs in, letter case disregarded; it is a
    rearrangement of the full listing restricted to them, and that list
    itself, in the same order, when every stored date is valid; and the
    letter case of the query does not matter. *)
Theorem search_is_filtered_listing (q : string) (s : MemStorage.t) :
  ascii_text q = true ->
  forallb ascii_request (Js.map_values (MemStorage.serviceRequests s)) = true ->
  (forall r, In r (MemStorage.searchServiceRequests q s) <->
             In r (MemStorage.getAllServiceRequests s) /\ searchable_hit q r)
  /\ Permutation (MemStorage.searchServiceRequests q s)
       (filter (MemStorage.matches (Js.toLowerCase q)) (MemStorage.getAllServiceRequests s))
  /\ (requests_valid s = true ->
      MemStorage.searchServiceRequests q s
      = filter (MemStorage.matches (Js.toLowerCase q)) (MemStorage.getAllServiceRequests s))
  /\ (forall q', ascii_text q' = true -> Js.toLowerCase q' = Js.toLowerCase q ->
                 MemStorage.searchServiceRequests q' s = MemStorage.searchServiceRequests q s).
Proof.
  intros _ _.
  unfold MemStorage.searchServiceRequests, MemStorage.getAllServiceRequests.
  split; [|split; [|split]].
  - intros r. now rewrite !sortBy_In, filter_In, matches_spec.
  - eapply perm_trans; [apply sortBy_perm|].
    apply filter_perm, Permutation_sym, sortBy_perm.
  - intros Hv. now rewrite filter_sort_newest_first.
  - intros q' _ Hq. now rewrite Hq.
Qed.

Lemma search_is_filtered_listing_example :
  MemStorage.searchServiceRequests "ACME" store_pump_x
  = filter (MemStorage.matches (Js.toLowerCase "ACME"))
      (MemStorage.getAllServiceRequests store_pump_x).
Proof.
  exact (proj1 (proj2 (proj2 (search_is_filtered_listing "ACME" store_pump_x
                                eq_refl eq_refl))) eq_refl).
Defined.

Lemma plain_char_lower (c : ascii) :
  plain_char c = true -> plain_char (Js.lower_char c) = true.
Proof. destruct c as [[] [] [] [] [] [] [] []]; intros H; first [exact H | reflexivity]. Qed.

Lemma plain_lower (q : string) : plain q = true -> plain (Js.toLowerCase q) = true.
Proof.
  induction q as [|c q IH]; simpl; [reflexivity|].
  rewrite !andb_true_iff. intros [Hc Hq]. split; [now apply plain_char_lower | now apply IH].
Qed.

Lemma like_parse_plain (t : string) :
  plain t = true ->
  Sql.like_parse (t ++ "%")
  = Some (map Sql.Lit (list_ascii_of_string t) ++ [Sql.AnySeq]).
Proof.
  induction t as [|c t IH]; simpl; [reflexivity|].
  rewrite andb_true_iff. intros [Hc Ht].
  unfold plain_char in Hc. apply negb_true_iff in Hc.
  apply orb_false_iff in Hc. destruct Hc as [Hc H3].
  apply orb_false_iff in Hc. destruct Hc as [H1 H2].
  rewrite H1, H2, H3, (IH Ht). reflexivity.
Qed.

Lemma like_match_skip (ts : list Sql.tok) (s : string) :
  Sql.like_match (Sql.AnySeq :: ts) s =
  Sql.like_match ts s ||
  match s with
  | EmptyString => false
  | String _ s' => Sql.like_match (Sql.AnySeq :: ts) s'
  end.
Proof. destruct s; reflexivity. Qed.

Lemma like_match_literals (t s : string) :
  Sql.like_match (map Sql.Lit (list_ascii_of_string t) ++ [Sql.AnySeq]) s
  = Js.startsWith s t.
Proof.
  revert s. induction t as [|c t IH]; intros s.
  - apply like_match_anyseq.
  - destruct s as [|a s]; simpl; [reflexivity|]. now rewrite IH.
Qed.

Lemma like_match_includes (t s : string) :
  Sql.like_match (Sql.AnySeq :: map Sql.Lit (list_ascii_of_string t) ++ [Sql.AnySeq]) s
  = Js.includes s t.
Proof.
  induction s as [|a s IH]; rewrite like_match_skip, includes_unfold, like_match_literals.
  - reflexivity.
  - now rewrite IH.
Qed.

Lemma ilike_plain (q column : string) :
  plain q = true ->
  Sql.ilike column ("%" ++ q ++ "%")
  = Some (Js.includes (Js.toLowerCase column) (Js.toLowerCase q)).
Proof.
  intros Hq. unfold Sql.ilike.
  change (Js.toLowerCase ("%" ++ q ++ "%"))
    with (String "%" (Js.toLowerCase (q ++ "%"))).
  rewrite toLowerCase_app.
  change (Sql.like_parse (String "%" (Js.toLowerCase q ++ Js.toLowerCase "%")))
    with (option_map (cons Sql.AnySeq) (Sql.like_parse (Js.toLowerCase q ++ "%"))).
  rewrite (like_parse_plain _ (plain_lower q Hq)). cbv beta iota delta [option_map].
  now rewrite like_match_includes.
Qed.

Lemma where_filter {A : Type} (p : A -> bool) (cond : A -> option bool) (rows : list A) :
  (forall r, cond r = Some (p r)) -> Sql.where_ cond rows = Some (filter p rows).
Proof.
  intros Hc. induction rows as [|r rows IH]; simpl; [reflexivity|].
  now rewrite Hc, IH.
Qed.

(** X17: on ASCII text and for a query without [%], [_] and backslash, the
    relational search selects exactly the rows the query occurs in, letter
    case disregarded; on a table with the rows an in-process store holds,
    those are the requests that store's search returns. *)
Theorem db_search_plain (q : string) (db : DatabaseStorage.t) :
  plain q = true ->
  ascii_text q = true ->
  forallb ascii_request (DatabaseStorage.serviceRequests db) = true ->
  exists l,
    DatabaseStorage.searchServiceRequests q db = Some l
    /\ (forall r, In r l <->
                  In r (DatabaseStorage.serviceRequests db) /\ searchable_hit q r)
    /\ (forall s,
          DatabaseStorage.serviceRequests db = Js.map_values (MemStorage.serviceRequests s) ->
          forall r, In r l <-> In r (MemStorage.searchServiceRequests q s)).
Proof.
  intros Hq _ _.
  assert (H : DatabaseStorage.searchServiceRequests q db
              = Some (Js.sortBy DatabaseStorage.desc_createdAt
                        (filter (MemStorage.matches (Js.toLowerCase q))
                           (DatabaseStorage.serviceRequests db)))).
  { unfold DatabaseStorage.searchServiceRequests.
    rewrite (where_filter (MemStorage.matches (Js.toLowerCase q))); [reflexivity|].
    intros r. unfold DatabaseStorage.search_condition, MemStorage.matches.
    rewrite !(ilike_plain q _ Hq). simpl. now rewrite !orb_assoc. }
  eexists. split; [exact H|]. split.
  - intros r. now rewrite sortBy_In, filter_In, matches_spec.
  - intros s Hrows r. unfold MemStorage.searchServiceRequests.
    now rewrite !sortBy_In, Hrows.
Qed.

Lemma db_search_plain_example :
  exists l,
    DatabaseStorage.searchServiceRequests "ACME" db_pump_x = Some l
    /\ (forall r, In r l <->
                  In r (DatabaseStorage.serviceRequests db_pump_x)
                  /\ searchable_hit "ACME" r).
Proof.
  destruct (db_search_plain "ACME" db_pump_x eq_refl eq_refl eq_refl) as (l & Hl & Hin & _).
  exists l. split; [exact Hl | exact Hin].
Defined.

Lemma like_parse_suffix (n : nat) (t : string) :
  String.length t <= n -> exists ts, Sql.like_parse (t ++ "%") = Some ts.
Proof.
  revert t. induction n as [|n IH]; intros t Hn.
  - destruct t; [|simpl in Hn; lia]. now eexists.
  - destruct t as [|c t]; [now eexists|]. simpl in Hn.
    assert (Ht : exists ts, Sql.like_parse (t ++ "%") = Some ts) by (apply IH; lia).
    destruct Ht as [ts Hts]. simpl.
    destruct (Ascii.eqb c "%"); [rewrite Hts; now eexists|].
    destruct (Ascii.eqb c "_"); [rewrite Hts; now eexists|].
    destruct (Ascii.eqb c "\"); [|rewrite Hts; now eexists].
    destruct t as [|d t]; simpl; [now eexists|].
    simpl in Hn. destruct (IH t) as [ts' Hts']; [lia|].
    rewrite Hts'. now eexists.
Qed.

Lemma ilike_defined (q column : string) :
  exists b, Sql.ilike column ("%" ++ q ++ "%") = Some b.
Proof.
  unfold Sql.ilike.
  change (Js.toLowerCase ("%" ++ q ++ "%"))
    with (String "%" (Js.toLowerCase (q ++ "%"))).
  rewrite toLowerCase_app.
  change (Sql.like_parse (String "%" (Js.toLowerCase q ++ Js.toLowerCase "%")))
    with (option_map (cons Sql.AnySeq) (Sql.like_parse (Js.toLowerCase q ++ "%"))).
  destruct (like_parse_suffix _ (Js.toLowerCase q) (le_n _)) as [ts Hts].
  rewrite Hts. now eexists.
Qed.

Lemma where_defined {A : Type} (cond : A -> option bool) (rows : list A) :
  (forall r, exists b, cond r = Some b) ->
  exists l, Sql.where_ cond rows = Some l /\ forall r, In r l -> In r rows.
Proof.
  intros Hc. induction rows as [|r rows [l [IH Hsub]]]; simpl.
  - exists []. now split.
  - destruct (Hc r) as [b Hb]. rewrite Hb, IH.
    eexists. split; [reflexivity|].
    intros r'. destruct b; simpl; intuition.
Qed.

(** X18: the relational search never fails, whatever the query: a
    backslash at the end of the query escapes the closing [%] of the
    pattern, it does not leave a dangling escape.  The rows returned are
    rows of the table. *)
Theorem db_search_defined (q : string) (db : DatabaseStorage.t) :
  exists l,
    DatabaseStorage.searchServiceRequests q db = Some l
    /\ forall r, In r l -> In r (DatabaseStorage.serviceRequests db).
Proof.
  unfold DatabaseStorage.searchServiceRequests.
  destruct (where_defined (DatabaseStorage.search_condition q)
              (DatabaseStorage.serviceRequests db)) as (l & Hl & Hsub).
  - intros r. unfold DatabaseStorage.search_condition.
    destruct (ilike_defined q (ServiceRequest.customerContact r)) as [b1 ->].
    destruct (ilike_defined q (ServiceRequest.serialNumber r)) as [b2 ->].
    destruct (ilike_defined q (ServiceRequest.customerName r)) as [b3 ->].
    destruct (ilike_defined q (ServiceRequest.productName r)) as [b4 ->].
    now eexists.
  - rewrite Hl. eexists. split; [reflexivity|].
    intros r Hr. apply Hsub. now apply sortBy_In in Hr.
Qed.

(** A query that ends in a backslash asks for a literal [%] after it. *)
Example db_search_trailing_backslash :
  DatabaseStorage.searchServiceRequests "x\" db_pump_x = Some [].
Proof. reflexivity. Qed.

(* ===================================================================== *)
(** ** Further properties of the relational variant *)
(* ===================================================================== *)

Lemma filter_filter_none {A : Type} (p q : A -> bool) (l : list A) :
  (forall x, p x = true -> q x = false) -> filter p (filter q l) = [].
Proof.
  intros Hpq. induction l as [|x l IH]; simpl; [reflexivity|].
  destruct (q x) eqn:Q; simpl; [|exact IH].
  destruct (p x) eqn:P; [|exact IH].
  apply Hpq in P. congruence.
Qed.

Lemma filter_none_negb {A : Type} (p : A -> bool) (l : list A) :
  filter p l = [] -> filter (fun x => negb (p x)) l = l.
Proof.
  induction l as [|x l IH]; simpl; [reflexivity|].
  destruct (p x); simpl; [discriminate|]. intros H. now rewrite IH.
Qed.

Lemma sortBy_nil_inv {A : Type} (cmp : A -> A -> Z) (l : list A) :
  Js.sortBy cmp l = [] -> l = [].
Proof.
  intros H. apply length_zero_iff_nil.
  rewrite <- (sortBy_length cmp l), H. reflexivity.
Qed.

(** X19: deletion in the relational variant cascades and is confined to
    its identifier: afterwards neither the request nor any of its comments
    is found, the other requests and their comments are found as before,
    deleting again changes nothing, and deleting an identifier with no
    request and no comments changes nothing at all. *)
Theorem db_delete_cascades (id : string) (db : DatabaseStorage.t) :
  let db' := DatabaseStorage.deleteServiceRequest id db in
  DatabaseStorage.getServiceRequest id db' = None
  /\ DatabaseStorage.getCommentsByServiceRequestId id db' = []
  /\ (forall id', id' <> id ->
        DatabaseStorage.getServiceRequest id' db' = DatabaseStorage.getServiceRequest id' db
        /\ DatabaseStorage.getCommentsByServiceRequestId id' db'
           = DatabaseStorage.getCommentsByServiceRequestId id' db)
  /\ DatabaseStorage.deleteServiceRequest id db' = db'
  /\ (DatabaseStorage.getServiceRequest id db = None ->
      DatabaseStorage.getCommentsByServiceRequestId id db = [] ->
      db' = db).
Proof.
  destruct db as [rows cs].
  unfold DatabaseStorage.deleteServiceRequest, DatabaseStorage.getServiceRequest,
    DatabaseStorage.getCommentsByServiceRequestId, Sql.orderBy. simpl.
  split; [|split; [|split; [|split]]].
  - rewrite filter_filter_none; [reflexivity|].
    intros x Hx. now rewrite Hx.
  - rewrite filter_filter_none; [reflexivity|].
    intros x Hx. now rewrite Hx.
  - intros id' Hne. split.
    + rewrite filter_filter_weaker; [reflexivity|].
      intros x Hx. apply String.eqb_eq in Hx.
      apply negb_true_iff, String.eqb_neq. congruence.
    + rewrite filter_filter_weaker; [reflexivity|].
      intros x Hx. apply String.eqb_eq in Hx.
      apply negb_true_iff, String.eqb_neq. congruence.
  - f_equal; apply filter_filter_weaker; auto.
  - intros Hr Hc. f_equal.
    + apply filter_none_negb.
      destruct (filter _ rows); [reflexivity | discriminate].
    + apply filter_none_negb. now apply sortBy_nil_inv in Hc.
Qed.

(** X20: an update in the relational variant is rejected when the
    [createdAt] it carries is not a valid date, and when a row has the
    identifier while the update carries another [id] that is taken or the
    row is referred to by a comment; otherwise it answers "not found" and
    changes nothing when no row has the identifier, and else returns the
    merged row, sets it in the place of the old one, and neither adds nor
    removes a row nor touches a comment. *)
Theorem db_update_cases (id : string) (updates : PartialServiceRequest.t) (now : Z)
    (db : DatabaseStorage.t) :
  (DatabaseStorage.sendable updates = false ->
   DatabaseStorage.updateServiceRequest id updates now db = None)
  /\ (DatabaseStorage.sendable updates = true ->
      DatabaseStorage.getServiceRequest id db = None ->
      DatabaseStorage.updateServiceRequest id updates now db = Some (None, db))
  /\ (forall r,
        DatabaseStorage.sendable updates = true ->
        DatabaseStorage.getServiceRequest id db = Some r ->
        DatabaseStorage.breaks_keys id updates db = true ->
        DatabaseStorage.updateServiceRequest id updates now db = None)
  /\ (forall r,
        DatabaseStorage.sendable updates = true ->
        DatabaseStorage.getServiceRequest id db = Some r ->
        DatabaseStorage.breaks_keys id updates db = false ->
        exists db',
          DatabaseStorage.updateServiceRequest id updates now db
          = Some (Some (MemStorage.merge r updates now), db')
          /\ DatabaseStorage.serviceRequests db'
             = map (fun x => if String.eqb (ServiceRequest.id x) id
                             then MemStorage.merge x updates now else x)
                   (DatabaseStorage.serviceRequests db)
          /\ List.length (DatabaseStorage.serviceRequests db')
             = List.length (DatabaseStorage.serviceRequests db)
          /\ DatabaseStorage.comments db' = DatabaseStorage.comments db).
Proof.
  unfold DatabaseStorage.updateServiceRequest, DatabaseStorage.getServiceRequest.
  split; [|split; [|split]].
  - now intros ->.
  - intros -> Hnone. simpl.
    destruct (filter _ (DatabaseStorage.serviceRequests db)); [reflexivity | discriminate].
  - intros r -> Hget Hb. simpl.
    destruct (filter _ (DatabaseStorage.serviceRequests db)); [discriminate|].
    now rewrite Hb.
  - intros r -> Hget Hb. simpl.
    destruct (filter _ (DatabaseStorage.serviceRequests db)) as [|r0 rest];
      [discriminate|].
    simpl in Hget. injection Hget as ->. rewrite Hb.
    eexists. split; [reflexivity|]. simpl.
    split; [reflexivity|]. split; [apply length_map | reflexivity].
Qed.

Lemma db_update_cases_example :
  DatabaseStorage.updateServiceRequest "id-1"
    (PartialServiceRequest.of_createdAt 9000000000000000) 2000 db_pump_x = None.
Proof.
  exact (proj1 (db_update_cases "id-1" (PartialServiceRequest.of_createdAt 9000000000000000)
                  2000 db_pump_x) eq_refl).
Defined.

(* ===================================================================== *)
(** ** What the client displays *)
(* ===================================================================== *)

Lemma filter_comm {A : Type} (p q : A -> bool) (l : list A) :
  filter p (filter q l) = filter q (filter p l).
Proof.
  induction l as [|x l IH]; simpl; [reflexivity|].
  destruct (p x) eqn:P, (q x) eqn:Q; simpl; rewrite ?P, ?Q, IH; reflexivity.
Qed.

(** X21: while a search is on, no status card is selected and every stored
    date is valid, the active list shows the active listing restricted to
    the requests the store's search matches, the completed list shows the
    completed listing restricted likewise, both in the order of the
    listings, and together they show the search result: nothing twice,
    nothing left out. *)
Theorem displayed_under_search (q : string) (s : MemStorage.t)
    (active completed : option (list ServiceRequest.t)) :
  q <> "" ->
  requests_valid s = true ->
  let results := Some (MemStorage.searchServiceRequests q s) in
  Home.displayedActiveRequests q results active None
    = filter (MemStorage.matches (Js.toLowerCase q)) (MemStorage.getActiveServiceRequests s)
  /\ Home.displayedCompletedRequests q results completed
     = filter (MemStorage.matches (Js.toLowerCase q))
         (MemStorage.getCompletedServiceRequests s)
  /\ Permutation
       (Home.displayedActiveRequests q results active None
        ++ Home.displayedCompletedRequests q results completed)
       (MemStorage.searchServiceRequests q s).
Proof.
  intros Hq Hv. apply String.eqb_neq in Hq. simpl.
  unfold Home.displayedActiveRequests, Home.displayedCompletedRequests. rewrite Hq.
  assert (Hsub : forall p : ServiceRequest.t -> bool,
            forallb (fun r => Js.valid_time (ServiceRequest.createdAt r))
              (filter p (Js.map_values (MemStorage.serviceRequests s))) = true).
  { intros p. apply forallb_forall. intros r Hr. apply filter_In in Hr.
    unfold requests_valid in Hv. rewrite forallb_forall in Hv. now apply Hv. }
  split; [|split].
  - unfold MemStorage.searchServiceRequests, MemStorage.getActiveServiceRequests.
    rewrite !filter_sort_newest_first by apply Hsub. f_equal. apply filter_comm.
  - unfold MemStorage.searchServiceRequests, MemStorage.getCompletedServiceRequests.
    rewrite !filter_sort_newest_first by apply Hsub. f_equal. apply filter_comm.
  - apply (filter_split_perm
             (fun req => String.eqb (ServiceRequest.status req) "completed")).
Qed.

Lemma displayed_under_search_example :
  Home.displayedActiveRequests "acme"
    (Some (MemStorage.searchServiceRequests "acme" store_pump_x)) None None
  = filter (MemStorage.matches (Js.toLowerCase "acme"))
      (MemStorage.getActiveServiceRequests store_pump_x).
Proof.
  refine (proj1 (displayed_under_search "acme" store_pump_x None None _ eq_refl)).
  discriminate.
Defined.

(** X22: without a search, the active list under a selected status card
    has as many rows as the card's counter shows, and without a card as many
    as [totalActive]; a selection other than the four cards' statuses that
    is not empty shows the active requests of that status. *)
Theorem displayed_matches_counters (s : MemStorage.t)
    (results : option (list ServiceRequest.t)) :
  let m := MemStorage.getMetrics s in
  let shown (card : option string) :=
    List.length
      (Home.displayedActiveRequests "" results
         (Some (MemStorage.getActiveServiceRequests s)) card) in
  shown None = MemStorage.totalActive m
  /\ shown (Some "new") = MemStorage.newComplaints m
  /\ shown (Some "inspection") = MemStorage.underInspection m
  /\ shown (Some "service") = MemStorage.sentToService m
  /\ shown (Some "received") = MemStorage.received m
  /\ (forall v, v <> "" -> v <> "completed" ->
        shown (Some v)
        = count_stored (fun r => String.eqb (ServiceRequest.status r) v) s).
Proof.
  simpl. unfold Home.displayedActiveRequests.
  destruct results as [results|]; simpl;
    (repeat split;
     intros v Hv Hc; apply String.eqb_neq in Hv; rewrite Hv;
     apply (count_active_status v _ Hc)).
Qed.

(* ===================================================================== *)
(** ** The order of the listings *)
(* ===================================================================== *)


Lemma forallb_map_set {V : Type} (p : V -> bool) (k : string) (v : V) (m : Js.Map V) :
  forallb p (Js.map_values m) = true -> p v = true ->
  forallb p (Js.map_values (Js.map_set k v m)) = true.
Proof.
  unfold Js.map_values. intros Hm Hv.
  induction m as [|[k' v'] m IH]; simpl in *.
  - now rewrite Hv.
  - apply andb_true_iff in Hm. destruct Hm as [Hv' Hm].
    destruct (String.eqb k' k); simpl.
    + now rewrite Hv, Hm.
    + now rewrite Hv', (IH Hm).
Qed.

Lemma map_get_forallb {V : Type} (p : V -> bool) (k : string) (v : V) (m : Js.Map V) :
  forallb p (Js.map_values m) = true -> Js.map_get k m = Some v -> p v = true.
Proof.
  intros Hm Hget. unfold Js.map_values in Hm. rewrite forallb_forall in Hm.
  apply Hm. change v with (snd (k, v)). now apply in_map, map_get_In.
Qed.

Lemma dates_valid_step (s : MemStorage.t) (o : History.op) :
  requests_valid s = true -> comments_valid s = true -> stamps_valid o = true ->
  requests_valid (History.step s o) = true /\ comments_valid (History.step s o) = true.
Proof.
  unfold requests_valid, comments_valid. intros Hr Hc Ho.
  destruct o as [ins uuid now | id updates now | ins uuid now]; simpl in *.
  - split; [|exact Hc]. now apply forallb_map_set.
  - unfold MemStorage.updateServiceRequest.
    destruct (Js.map_get id (MemStorage.serviceRequests s)) as [existing|] eqn:G; simpl.
    + split; [|exact Hc]. apply forallb_map_set; [exact Hr|]. simpl.
      apply andb_true_iff in Ho. destruct Ho as [_ Ho].
      destruct (PartialServiceRequest.createdAt updates); [exact Ho|].
      apply (map_get_forallb _ _ _ _ Hr G).
    + now split.
  - split; [exact Hr|]. now apply forallb_map_set.
Qed.

(** Valid dates are kept by every operation that stamps valid ones. *)
Lemma dates_valid_reachable (ops : list History.op) :
  forallb stamps_valid ops = true ->
  requests_valid (History.run ops) = true /\ comments_valid (History.run ops) = true.
Proof.
  unfold History.run.
  assert (H : forall ops s,
            requests_valid s = true -> comments_valid s = true ->
            forallb stamps_valid ops = true ->
            requests_valid (fold_left History.step ops s) = true
            /\ comments_valid (fold_left History.step ops s) = true).
  { induction ops0 as [|o ops0 IH]; intros s Hr Hc Hops; simpl in *; [now split|].
    apply andb_true_iff in Hops. destruct Hops as [Ho Hops].
    destruct (dates_valid_step s o Hr Hc Ho) as [Hr' Hc'].
    now apply IH. }
  now apply H.
Qed.



